(** * HousePower MiniBMS cell module: the decision and timing core

    A shallow embedding of [src/main.cpp] (normal mode, i.e. without
    CALIBRATION_MODE and without DEBUG): the moving-average voltage filter,
    the hysteresis/debounce classifier [determine_cellstate], and the control
    loop [loop] with its cutoff-recency counter and its output sequence.

    Data representation (target: AVR, 8-bit):
    - [long]          signed 32 bit, as [Z] with the wrap-around [wrap_long];
    - [unsigned int]  16 bit, as [N] with the wrap-around [wrap_uint];
    - [byte]          8 bit, as [N] with the wrap-around [wrap_byte];
    - the anonymous cell state [enum] as the inductive type [CellState];
    - the global [avg_buffer] array as a [list Z] updated by index;
    - the global variables as one record [globals], passed explicitly;
    - port writes, delays and sleeps as a trace of [io] events. *)

From Stdlib Require Import ZArith NArith Lia List Bool.
From stdpp Require Import base list.
Import ListNotations.

#[local] Open Scope Z_scope.

(** ** Machine integers *)

Definition wrap_long (z : Z) : Z := (z + 2 ^ 31) mod 2 ^ 32 - 2 ^ 31.
Definition wrap_uint (n : N) : N := (n mod 2 ^ 16)%N.
Definition wrap_byte (n : N) : N := (n mod 2 ^ 8)%N.

Definition long_range (z : Z) : Prop := - 2 ^ 31 <= z < 2 ^ 31.

(** ** User configuration (compile-time constants) *)

Definition c_LVoltage_engage : Z := 2900.
Definition c_LVoltage_disengage : Z := 2950.
Definition c_HVoltage_engage : Z := 3600.
Definition c_HVoltage_disengage : Z := 3550.

Definition c_ShuntVoltage_engage : Z := 3500.
Definition c_ShuntVoltage_disengage : Z := 3450.

Definition c_MovingAverageWindow : N := 5.
Definition c_StateSettleTime : N := 3.
Definition c_RecentCutOffDuration : N := 30 * 60.

Definition c_NoCutoffEvent : N := 0xffff.

(** ** Cell states *)

Inductive CellState : Set :=
| e_CellInvalid
| e_CellNorm
| e_CellLVC
| e_CellHVC.

Definition CellState_eqb (a b : CellState) : bool :=
  match a, b with
  | e_CellInvalid, e_CellInvalid
  | e_CellNorm, e_CellNorm
  | e_CellLVC, e_CellLVC
  | e_CellHVC, e_CellHVC => true
  | _, _ => false
  end.

(** ** Global variables *)

Record globals : Set := Globals {
  cellvoltage : Z;                 (* long *)
  avg_buffer : list Z;             (* long [c_MovingAverageWindow] *)
  avg_index : N;                   (* byte *)
  cellstate : CellState;
  cellstate_pending : CellState;
  cellstate_pending_age : N;       (* unsigned int *)
  shunting : bool;
  shunting_pending : bool;
  shunting_pending_age : N;        (* unsigned int *)
  last_cutoff_age : N              (* unsigned int *)
}.

Definition set_cellvoltage (v : Z) (g : globals) : globals :=
  Globals v (avg_buffer g) (avg_index g)
    (cellstate g) (cellstate_pending g) (cellstate_pending_age g)
    (shunting g) (shunting_pending g) (shunting_pending_age g)
    (last_cutoff_age g).

Definition set_avg (buf : list Z) (idx : N) (g : globals) : globals :=
  Globals (cellvoltage g) buf idx
    (cellstate g) (cellstate_pending g) (cellstate_pending_age g)
    (shunting g) (shunting_pending g) (shunting_pending_age g)
    (last_cutoff_age g).

Definition set_cell (cs pend : CellState) (age : N) (g : globals) : globals :=
  Globals (cellvoltage g) (avg_buffer g) (avg_index g)
    cs pend age
    (shunting g) (shunting_pending g) (shunting_pending_age g)
    (last_cutoff_age g).

Definition set_shunt (sh pend : bool) (age : N) (g : globals) : globals :=
  Globals (cellvoltage g) (avg_buffer g) (avg_index g)
    (cellstate g) (cellstate_pending g) (cellstate_pending_age g)
    sh pend age
    (last_cutoff_age g).

Definition set_last_cutoff_age (a : N) (g : globals) : globals :=
  Globals (cellvoltage g) (avg_buffer g) (avg_index g)
    (cellstate g) (cellstate_pending g) (cellstate_pending_age g)
    (shunting g) (shunting_pending g) (shunting_pending_age g)
    a.

(** ** Voltage filter: [moving_average]

    [avg_buffer[avg_index++] = val] writes the slot under the cursor (a write
    past the array is undefined in C++; on the list it changes nothing, and
    the cursor never leaves the window, see [window_ok]), the cursor is then
    reduced modulo the window, and the [for] loop adds the slots
    [0 .. c_MovingAverageWindow - 1] into a [long]. *)

Definition sum_buffer (buf : list Z) : Z :=
  fold_left (fun sum ii => wrap_long (sum + nth ii buf 0))
            (seq 0 (N.to_nat c_MovingAverageWindow)) 0.

Definition moving_average (val : Z) (g : globals) : Z * globals :=
  let buf := <[N.to_nat (avg_index g) := val]> (avg_buffer g) in
  let idx := (wrap_byte (avg_index g + 1) mod c_MovingAverageWindow)%N in
  (Z.quot (sum_buffer buf) (Z.of_N c_MovingAverageWindow), set_avg buf idx g).

(** The array has [c_MovingAverageWindow] slots and the cursor points into it. *)
Definition window_ok (g : globals) : Prop :=
  length (avg_buffer g) = N.to_nat c_MovingAverageWindow /\
  (avg_index g < c_MovingAverageWindow)%N.

(** ** Classification: [determine_cellstate] *)

(** The local [shunting_new], from the committed flag and the voltage. *)
Definition shunting_new (sh : bool) (v : Z) : bool :=
  let new := sh in
  let new := if negb sh && (c_ShuntVoltage_engage <? v) then true else new in
  let new := if sh && (v <? c_ShuntVoltage_disengage) then false else new in
  new.

(** The local [cellstate_new], from the committed state and the voltage:
    six [if] statements in sequence, each overwriting the variable. *)
Definition cellstate_new (cs : CellState) (v : Z) : CellState :=
  let new := cs in
  let new := if CellState_eqb cs e_CellHVC && (v <? c_HVoltage_disengage)
             then e_CellNorm else new in
  let new := if CellState_eqb cs e_CellLVC && (c_LVoltage_disengage <? v)
             then e_CellNorm else new in
  let new := if CellState_eqb cs e_CellInvalid
                && (c_LVoltage_engage <? v) && (v <? c_HVoltage_engage)
             then e_CellNorm else new in
  let new := if (c_LVoltage_disengage <? v) && (v <? c_HVoltage_disengage)
             then e_CellNorm else new in
  let new := if c_HVoltage_engage <=? v then e_CellHVC else new in
  let new := if v <=? c_LVoltage_engage then e_CellLVC else new in
  new.

Definition determine_cellstate (g : globals) : globals :=
  let cs_new := cellstate_new (cellstate g) (cellvoltage g) in
  let sh_new := shunting_new (shunting g) (cellvoltage g) in
  let g :=
    if negb (Bool.eqb (shunting_pending g) sh_new) then
      set_shunt (shunting g) sh_new 0%N g
    else if (c_StateSettleTime <? shunting_pending_age g)%N then
      set_shunt sh_new (shunting_pending g) (shunting_pending_age g) g
    else
      set_shunt (shunting g) (shunting_pending g)
                (wrap_uint (shunting_pending_age g + 1)) g in
  if CellState_eqb cs_new e_CellInvalid then g
  else if negb (CellState_eqb (cellstate_pending g) cs_new) then
    set_cell (cellstate g) cs_new 0%N g
  else if (c_StateSettleTime <? cellstate_pending_age g)%N then
    set_cell cs_new (cellstate_pending g) (cellstate_pending_age g) g
  else
    set_cell (cellstate g) (cellstate_pending g)
             (wrap_uint (cellstate_pending_age g + 1)) g.

(** ** Outputs and the control loop *)

Inductive wd_timeout : Set :=
| WD_TIMEOUT_64ms
| WD_TIMEOUT_125ms
| WD_TIMEOUT_250ms
| WD_TIMEOUT_500ms
| WD_TIMEOUT_1000ms
| WD_TIMEOUT_2000ms.

(** What a tick does to the outside world, in program order. *)
Inductive io : Set :=
| LED_ON
| LED_OFF
| SHUNT_ON
| SHUNT_OFF
| LOOP_CLOSE
| LOOP_OPEN
| delay (ms : N)
| delayMicroseconds (us : N)
| deep_sleep (duration : wd_timeout).

(** The globals as their initialisers leave them ([avg_buffer] is zeroed
    static storage). *)
Definition initial_globals : globals :=
  {| cellvoltage := 3200;
     avg_buffer := repeat 0 (N.to_nat c_MovingAverageWindow);
     avg_index := 0%N;
     cellstate := e_CellInvalid;
     cellstate_pending := e_CellInvalid;
     cellstate_pending_age := 0%N;
     shunting := false;
     shunting_pending := false;
     shunting_pending_age := 0%N;
     last_cutoff_age := 0%N |}.

(** [setup]: all outputs low, every slot of the window set to the nominal
    3200 mV, and [last_cutoff_age = 0]. *)
Definition setup (g : globals) : globals * list io :=
  let buf :=
    fold_left (fun b ii => <[ii := 3200]> b)
              (seq 0 (N.to_nat c_MovingAverageWindow)) (avg_buffer g) in
  (set_last_cutoff_age 0%N (set_avg buf (avg_index g) g),
   [LED_OFF; SHUNT_OFF; LOOP_OPEN]).

(** One pass of [loop]; [vcc] is what [readVcc (calibration_factor_custom)]
    returned in this pass (the calibrated supply voltage in mV). *)
Definition loop (vcc : Z) (g : globals) : globals * list io :=
  let g := if negb (last_cutoff_age g =? c_NoCutoffEvent)%N
           then set_last_cutoff_age (wrap_uint (last_cutoff_age g + 1)) g
           else g in
  let measure := [LED_OFF; SHUNT_OFF; delayMicroseconds 200] in
  let '(avg, g) := moving_average vcc g in
  let g := set_cellvoltage avg g in
  let g := determine_cellstate g in
  match cellstate g with
  | e_CellLVC =>
      (set_last_cutoff_age 0%N g,
       measure ++ [LOOP_OPEN; LED_OFF; SHUNT_OFF; deep_sleep WD_TIMEOUT_1000ms])
  | e_CellNorm =>
      let invert_led := (last_cutoff_age g <? c_RecentCutOffDuration)%N in
      let g := if invert_led then g
               else set_last_cutoff_age c_NoCutoffEvent g in
      (g,
       measure ++ [LOOP_CLOSE] ++
       if negb (shunting g) then
         [SHUNT_OFF;
          if negb invert_led then LED_ON else LED_OFF;
          delay 20;
          if negb invert_led then LED_OFF else LED_ON;
          deep_sleep WD_TIMEOUT_1000ms]
       else
         [SHUNT_ON; LED_OFF; delay 500; LED_ON; delay 500;
          SHUNT_OFF; delay 100; LED_OFF])
  | e_CellHVC =>
      (set_last_cutoff_age 0%N g,
       measure ++ [LOOP_OPEN; SHUNT_ON] ++
       concat (repeat [LED_OFF; delay 50; LED_ON; delay 50] 10) ++
       [SHUNT_OFF; delay 100])
  | e_CellInvalid =>
      (g,
       measure ++ [LOOP_CLOSE; SHUNT_OFF] ++
       concat (repeat [LED_ON; delay 166; LED_OFF; delay 166] 3))
  end.

(** The device after power-on, before the first pass of [loop]. *)
Definition power_on : globals := fst (setup initial_globals).

(** The globals after one pass of [loop] per reading, oldest reading first. *)
Definition run (vccs : list Z) (g : globals) : globals :=
  fold_left (fun g vcc => fst (loop vcc g)) vccs g.

(** The classifier alone: one call of [determine_cellstate] per filtered
    voltage, as [loop] makes it after storing the filter's result. *)
Definition classify_tick (v : Z) (g : globals) : globals :=
  determine_cellstate (set_cellvoltage v g).

Definition classify_run (vs : list Z) (g : globals) : globals :=
  fold_left (fun g v => classify_tick v g) vs g.

(** ** Views and auxiliary notions used in the statements *)

(** The three globals of the cell debouncer, and of the shunt debouncer. *)
Definition cell_view (g : globals) : CellState * CellState * N :=
  (cellstate g, cellstate_pending g, cellstate_pending_age g).

Definition shunt_view (g : globals) : bool * bool * N :=
  (shunting g, shunting_pending g, shunting_pending_age g).

(** The debounce block that [determine_cellstate] contains twice, once per
    debounced variable, as one function of (committed, pending, age). *)
Section Debounce.
Context {A : Type} (eqb : A -> A -> bool).

Definition debounce (new : A) (s : A * A * N) : A * A * N :=
  let '(st, pend, age) := s in
  if negb (eqb pend new) then (st, new, 0%N)
  else if (c_StateSettleTime <? age)%N then (new, pend, age)
  else (st, pend, wrap_uint (age + 1)).

Fixpoint debounce_n (new : A) (n : nat) (s : A * A * N) : A * A * N :=
  match n with
  | O => s
  | S n => debounce_n new n (debounce new s)
  end.
End Debounce.

Definition in_safe_band (v : Z) : Prop :=
  c_LVoltage_disengage < v < c_HVoltage_disengage.

Definition is_cutoff (cs : CellState) : bool :=
  match cs with
  | e_CellLVC | e_CellHVC => true
  | e_CellInvalid | e_CellNorm => false
  end.

(** The decision algorithm as section 4.2 of the specification words it:
    rule 1 is the default proposal, rules 2 to 7 are tried in this order and
    a rule that fires replaces the proposal made so far. *)
Record rule : Type := Rule {
  fires : CellState -> Z -> bool;
  proposal : CellState
}.

Definition rules_2_to_7 : list rule :=
  [ Rule (fun cs v => CellState_eqb cs e_CellHVC && (v <? c_HVoltage_disengage))
         e_CellNorm;
    Rule (fun cs v => CellState_eqb cs e_CellLVC && (c_LVoltage_disengage <? v))
         e_CellNorm;
    Rule (fun cs v => CellState_eqb cs e_CellInvalid
                      && ((c_LVoltage_engage <? v) && (v <? c_HVoltage_engage)))
         e_CellNorm;
    Rule (fun _ v => (c_LVoltage_disengage <? v) && (v <? c_HVoltage_disengage))
         e_CellNorm;
    Rule (fun _ v => c_HVoltage_engage <=? v) e_CellHVC;
    Rule (fun _ v => v <=? c_LVoltage_engage) e_CellLVC ].

Definition classify_by_rules (cs : CellState) (v : Z) : CellState :=
  fold_left (fun prop r => if fires r cs v then proposal r else prop)
            rules_2_to_7 cs.

(** The filter after [n] further pushes of the same reading. *)
Fixpoint push_n (val : Z) (n : nat) (g : globals) : globals :=
  match n with
  | O => g
  | S n => push_n val n (snd (moving_average val g))
  end.

(** The exact sum of the slots, without the 32-bit accumulator. *)
Definition exact_sum (buf : list Z) : Z := fold_right Z.add 0 buf.

(** The recency counter after a pass of [loop] that ends with committed
    state [cs], from its value [a] before the pass. *)
Definition recency_step (cs : CellState) (a : N) : N :=
  let a1 := if (a =? c_NoCutoffEvent)%N then a else wrap_uint (a + 1) in
  match cs with
  | e_CellLVC | e_CellHVC => 0%N
  | e_CellNorm => if (a1 <? c_RecentCutOffDuration)%N then a1 else c_NoCutoffEvent
  | e_CellInvalid => a1
  end.

(** Every pass of [loop] over [vccs] from [g] ends with a committed state
    that satisfies [p]. *)
Fixpoint every_tick (p : CellState -> bool) (vccs : list Z) (g : globals) : bool :=
  match vccs with
  | [] => true
  | vcc :: vccs =>
      let g' := fst (loop vcc g) in
      p (cellstate g') && every_tick p vccs g'
  end.

Definition is_norm (cs : CellState) : bool := CellState_eqb cs e_CellNorm.

(** How many of the passes end with committed state [e_CellNorm]. *)
Fixpoint count_norm (vccs : list Z) (g : globals) : nat :=
  match vccs with
  | [] => O
  | vcc :: vccs =>
      let g' := fst (loop vcc g) in
      (if is_norm (cellstate g') then 1 else 0)%nat + count_norm vccs g'
  end.

Definition no_cutoff (cs : CellState) : bool := negb (is_cutoff cs).

(** The globals of a pass of [loop] when it reaches the [switch]. *)
Definition at_switch (vcc : Z) (g : globals) : globals :=
  let g := if negb (last_cutoff_age g =? c_NoCutoffEvent)%N
           then set_last_cutoff_age (wrap_uint (last_cutoff_age g + 1)) g
           else g in
  let '(avg, g) := moving_average vcc g in
  determine_cellstate (set_cellvoltage avg g).

(** What the recency counter [c] can be [n] passes after it was 0, when no
    pass in between ended in a cutoff state: it has counted the passes
    while they are fewer than the recent-cutoff duration, and afterwards it
    is anywhere from that duration up to the sentinel. *)
Definition counts_since (n c : N) : Prop :=
  ((n < c_RecentCutOffDuration)%N -> c = n) /\
  ((c_RecentCutOffDuration <= n)%N ->
   (c_RecentCutOffDuration <= c <= c_NoCutoffEvent)%N).

(** The output of a pass that ends in Normal without shunting: the
    measurement prelude, the loop closed, and the 20 ms indicator pulse,
    inverted or not. *)
Definition normal_pass (invert_led : bool) : list io :=
  [LED_OFF; SHUNT_OFF; delayMicroseconds 200; LOOP_CLOSE; SHUNT_OFF;
   if invert_led then LED_OFF else LED_ON;
   delay 20;
   if invert_led then LED_ON else LED_OFF;
   deep_sleep WD_TIMEOUT_1000ms].

(** The end-to-end scenario of the specification: three readings of 3200 mV,
    then 2850 mV for good; [readings k] are the first [k] of them. *)
Definition reading_at (i : nat) : Z := if (i <? 3)%nat then 3200 else 2850.
Definition readings (k : nat) : list Z := map reading_at (seq 0 k).

(** The globals after tick [k] of the scenario (tick 0: power-on). *)
Definition scenario_at (k : nat) : globals := run (readings k) power_on.

(** The first tick in [1 .. horizon] of the scenario after which [p] holds. *)
Definition first_tick (p : globals -> bool) (horizon : nat) : option nat :=
  find (fun k => p (scenario_at k)) (seq 1 horizon).

(** ** Voltage measurement: [readADC], [readVcc], the calibration factors

    [int] is 16 bit on the target, [unsigned long] 32 bit. *)

Definition wrap_int (z : Z) : Z := (z + 2 ^ 15) mod 2 ^ 16 - 2 ^ 15.
Definition wrap_ulong (n : N) : N := (n mod 2 ^ 32)%N.

Definition calibration_voltage_metered : N := 3200.
Definition calibration_voltage_software : N := 3200.

Definition calibration_factor_custom : N :=
  wrap_ulong
    (wrap_ulong (wrap_ulong (1024 * 11) * 1000)
     / wrap_ulong (10 * calibration_voltage_software)
     * calibration_voltage_metered).

(** The value [readADC] builds from the two data registers once the
    conversion is complete (selecting the channel, starting the conversion
    and waiting for it are the converter's business): the bytes are
    promoted to [int], so [high << 8] is a 16-bit shift, and the result is
    widened to [long]. *)
Definition readADC (ADCL ADCH : Z) : Z :=
  Z.lor (wrap_int (Z.shiftl ADCH 8)) ADCL.

(** [readVcc]: a [long] division, undefined for a zero converter result. *)
Definition readVcc (calibration_factor adc : Z) : option Z :=
  if adc =? 0 then None else Some (Z.quot calibration_factor adc).

Section Measurement.

(** The bit pattern that selects the internal 1.1 V reference measured
    against Vcc; the device header gives its bits. *)
Variable ADMUX_VCCWRT1V1 : Z.

(** The head of [readADC], from the selection register [ADMUX]: the register
    is written, and the reference given 350 microseconds to settle, only if
    it does not hold the selection already.  The register afterwards and
    the events. *)
Definition readADC_select (ADMUX : Z) : Z * list io :=
  if negb (ADMUX =? ADMUX_VCCWRT1V1)
  then (ADMUX_VCCWRT1V1, [delayMicroseconds 350])
  else (ADMUX, []).

(** A pass of [loop] together with its measurement, from the selection
    register [ADMUX] before the pass and the data registers [ADCL], [ADCH]
    at the end of the conversion: the globals and the selection register
    after the pass, and the events of the pass.  [loop] calls [readVcc]
    after its first three events (indicator off, shunt off, 200 microseconds
    pause) and before it classifies, so the events of [readADC] come
    fourth. *)
Definition loop_measured (ADMUX ADCL ADCH : Z) (g : globals)
  : option (globals * Z * list io) :=
  let '(ADMUX', settle) := readADC_select ADMUX in
  match readVcc (Z.of_N calibration_factor_custom) (readADC ADCL ADCH) with
  | Some vcc =>
      Some (fst (loop vcc g), ADMUX',
            firstn 3 (snd (loop vcc g)) ++ settle ++ skipn 3 (snd (loop vcc g)))
  | None => None
  end.

End Measurement.

(** ** The output pins under a trace *)

Record pins : Set := Pins {
  pin_led : bool;
  pin_shunt : bool;
  pin_loop : bool            (* true: series loop closed *)
}.

Definition apply_io (p : pins) (e : io) : pins :=
  match e with
  | LED_ON => Pins true (pin_shunt p) (pin_loop p)
  | LED_OFF => Pins false (pin_shunt p) (pin_loop p)
  | SHUNT_ON => Pins (pin_led p) true (pin_loop p)
  | SHUNT_OFF => Pins (pin_led p) false (pin_loop p)
  | LOOP_CLOSE => Pins (pin_led p) (pin_shunt p) true
  | LOOP_OPEN => Pins (pin_led p) (pin_shunt p) false
  | delay _ | delayMicroseconds _ | deep_sleep _ => p
  end.

Definition pins_after (out : list io) (p : pins) : pins :=
  fold_left apply_io out p.

(** The milliseconds of [delay] a trace spends with the shunt engaged. *)
Fixpoint shunt_on_ms (out : list io) (p : pins) : N :=
  match out with
  | [] => 0%N
  | e :: out =>
      ((match e with
        | delay ms => if pin_shunt p then ms else 0
        | _ => 0
        end) + shunt_on_ms out (apply_io p e))%N
  end.

(** Every timed event of a trace that is not a [delay] (the measurement
    pause and the deep sleeps) happens with the shunt disengaged. *)
Fixpoint idle_without_shunt (out : list io) (p : pins) : bool :=
  match out with
  | [] => true
  | e :: out =>
      (match e with
       | delayMicroseconds _ | deep_sleep _ => negb (pin_shunt p)
       | _ => true
       end) && idle_without_shunt out (apply_io p e)
  end.

Definition is_deep_sleep (e : io) : bool :=
  match e with deep_sleep _ => true | _ => false end.

(** ** Notions for the invariants *)

(** The fewest ticks after which the debounce block can newly commit [x]
    from the state [s]. *)
Definition ticks_to_commit {A : Type} (eqb : A -> A -> bool) (x : A)
    (s : A * A * N) : N :=
  let '(_, pend, age) := s in
  if eqb pend x then
    if (c_StateSettleTime <? age)%N then 1%N
    else (c_StateSettleTime + 2 - age)%N
  else (c_StateSettleTime + 3)%N.

(** The slots of the filter window all lie in [lo, hi]. *)
Definition slots_within (lo hi : Z) (g : globals) : Prop :=
  Forall (fun x => lo <= x <= hi) (avg_buffer g).

(** What holds of the globals from power-on onwards: the window has its
    slots and cursor, the two age counters have not passed settle time + 1
    and the recency counter fits its 16 bits. *)
Definition globals_ok (g : globals) : Prop :=
  window_ok g /\
  (cellstate_pending_age g <= c_StateSettleTime + 1)%N /\
  (shunting_pending_age g <= c_StateSettleTime + 1)%N /\
  (last_cutoff_age g <= c_NoCutoffEvent)%N.

(** The globals after pushing the readings into the filter, oldest first. *)
Definition filter_run (vals : list Z) (g : globals) : globals :=
  fold_left (fun g val => snd (moving_average val g)) vals g.

(** A pass of [loop] fills the next slot: the window is well formed and a
    push of any reading in [lo, hi] leaves all slots in [lo, hi]. *)
Definition one_push_from (lo hi : Z) (g : globals) : Prop :=
  window_ok g /\
  forall val, lo <= val <= hi -> slots_within lo hi (snd (moving_average val g)).

(** * Properties *)

(** ** Machine integers and the enumeration *)

Lemma wrap_long_small z : long_range z -> wrap_long z = z.
Proof.
  unfold long_range, wrap_long. intros Hz.
  rewrite Z.mod_small by lia. lia.
Qed.

Lemma wrap_long_add_l a b : wrap_long (wrap_long a + b) = wrap_long (a + b).
Proof.
  unfold wrap_long.
  replace ((a + 2 ^ 31) mod 2 ^ 32 - 2 ^ 31 + b + 2 ^ 31)
    with ((a + 2 ^ 31) mod 2 ^ 32 + b) by lia.
  rewrite Zplus_mod_idemp_l. f_equal. f_equal. lia.
Qed.

Lemma wrap_uint_small n : (n < 2 ^ 16)%N -> wrap_uint n = n.
Proof. intros Hn. unfold wrap_uint. now apply N.mod_small. Qed.

Lemma CellState_eqb_eq a b : CellState_eqb a b = true <-> a = b.
Proof. destruct a, b; simpl; split; congruence. Qed.

Lemma CellState_eqb_refl a : CellState_eqb a a = true.
Proof. now destruct a. Qed.

Lemma CellState_eqb_neq a b : CellState_eqb a b = false <-> a <> b.
Proof. destruct a, b; simpl; split; congruence. Qed.

(** ** The classifier's proposal *)

(** Case analysis on every threshold comparison of the classifier. *)
Ltac thresholds v :=
  unfold c_LVoltage_engage, c_LVoltage_disengage, c_HVoltage_engage,
    c_HVoltage_disengage, c_ShuntVoltage_engage, c_ShuntVoltage_disengage in *;
  repeat match goal with
    | |- context [Z.ltb ?a ?b] => destruct (Z.ltb_spec a b)
    | |- context [Z.leb ?a ?b] => destruct (Z.leb_spec a b)
    end;
  simpl; try reflexivity; try lia.

(** In closed form: the voltage band decides, and only between the engage
    and disengage thresholds does the committed state matter. *)
Lemma cellstate_new_bands cs v :
  cellstate_new cs v =
  if v <=? c_LVoltage_engage then e_CellLVC
  else if c_HVoltage_engage <=? v then e_CellHVC
  else if (c_LVoltage_disengage <? v) && (v <? c_HVoltage_disengage) then e_CellNorm
  else match cs with
       | e_CellInvalid => e_CellNorm
       | e_CellLVC => if c_LVoltage_disengage <? v then e_CellNorm else e_CellLVC
       | e_CellHVC => if v <? c_HVoltage_disengage then e_CellNorm else e_CellHVC
       | e_CellNorm => e_CellNorm
       end.
Proof. unfold cellstate_new. destruct cs; simpl; thresholds v. Qed.

Lemma cellstate_new_not_invalid cs v :
  CellState_eqb (cellstate_new cs v) e_CellInvalid = false.
Proof. rewrite cellstate_new_bands. destruct cs; simpl; thresholds v. Qed.

Lemma cellstate_new_safe_band cs v :
  in_safe_band v -> cellstate_new cs v = e_CellNorm.
Proof.
  unfold in_safe_band. intros Hv. rewrite cellstate_new_bands.
  destruct cs; thresholds v.
Qed.

Lemma cellstate_new_high cs v :
  c_HVoltage_engage <= v -> cellstate_new cs v = e_CellHVC.
Proof. intros Hv. rewrite cellstate_new_bands. destruct cs; thresholds v. Qed.

Lemma cellstate_new_low cs v :
  v <= c_LVoltage_engage -> cellstate_new cs v = e_CellLVC.
Proof. intros Hv. rewrite cellstate_new_bands. destruct cs; thresholds v. Qed.

(** C1. The proposal computed by [determine_cellstate] is the result of the
    rules of section 4.2 taken in their order, a later rule that fires
    overriding the earlier ones; and a voltage at or below
    low-voltage-engage always yields UnderVoltageCutoff, whatever the
    committed state and whatever the other rules said. *)
Theorem cellstate_new_rule_order cs v :
  cellstate_new cs v = classify_by_rules cs v /\
  (v <= c_LVoltage_engage -> cellstate_new cs v = e_CellLVC).
Proof.
  split; [| apply cellstate_new_low].
  unfold cellstate_new, classify_by_rules, rules_2_to_7.
  cbn [fold_left fires proposal].
  now rewrite <- andb_assoc.
Qed.

Lemma cellstate_new_rule_order_witness :
  cellstate_new e_CellHVC 2900 = e_CellLVC.
Proof.
  apply (proj2 (cellstate_new_rule_order e_CellHVC 2900)).
  unfold c_LVoltage_engage. lia.
Defined.

(** Rule 7 is written last, so it would win over rule 6; with the configured
    thresholds no voltage satisfies both. *)
Lemma cutoff_rules_exclusive v :
  (c_HVoltage_engage <=? v) && (v <=? c_LVoltage_engage) = false.
Proof. thresholds v. Qed.

(** ** The debounce mechanism *)

(** Equality of state triples, component by component. *)
Ltac triple_eq :=
  repeat match goal with |- (_, _) = (_, _) => f_equal end;
  try reflexivity; try lia.

Section DebounceFacts.
Context {A : Type} (eqb : A -> A -> bool).
Hypothesis eqb_eq : forall a b, eqb a b = true <-> a = b.

Lemma eqb_same a : eqb a a = true.
Proof. now apply eqb_eq. Qed.

(** Closed form of [n] ticks that all propose the pending value [x]. *)
Lemma debounce_n_same x n : forall st age,
  debounce_n eqb x n (st, x, age) =
  if (c_StateSettleTime <? age)%N then
    (if Nat.eqb n 0 then st else x, x, age)
  else if (age + N.of_nat n <=? c_StateSettleTime + 1)%N then
    (st, x, (age + N.of_nat n)%N)
  else (x, x, (c_StateSettleTime + 1)%N).
Proof.
  unfold c_StateSettleTime.
  induction n as [|n IH]; intros st age.
  - simpl. destruct (N.ltb_spec 3 age); [reflexivity|].
    destruct (N.leb_spec (age + N.of_nat 0) (3 + 1)); [|lia].
    triple_eq.
  - cbn [debounce_n debounce]. rewrite eqb_same. cbn [negb].
    unfold c_StateSettleTime.
    destruct (N.ltb_spec 3 age) as [Hage|Hage].
    + rewrite IH. unfold c_StateSettleTime.
      destruct (N.ltb_spec 3 age); [|lia].
      now destruct n.
    + rewrite wrap_uint_small by (simpl; lia).
      rewrite IH. unfold c_StateSettleTime.
      destruct (N.ltb_spec 3 (age + 1)) as [H1|H1].
      * destruct (N.leb_spec (age + N.of_nat (S n)) (3 + 1)) as [H2|H2].
        -- assert (n = O) by lia. subst n. simpl. triple_eq.
        -- destruct n; [lia|]. simpl. triple_eq.
      * destruct (N.leb_spec (age + 1 + N.of_nat n) (3 + 1)) as [H2|H2];
          destruct (N.leb_spec (age + N.of_nat (S n)) (3 + 1)) as [H3|H3];
          try lia; triple_eq.
Qed.

(** Closed form when the first tick proposes something new: one tick to
    replace the pending value, [c_StateSettleTime + 1] ticks to age it, one
    more tick to commit. *)
Lemma debounce_n_fresh x st pend age n :
  eqb pend x = false ->
  debounce_n eqb x (S n) (st, pend, age) =
  if (N.of_nat n <=? c_StateSettleTime + 1)%N then (st, x, N.of_nat n)
  else (x, x, (c_StateSettleTime + 1)%N).
Proof.
  intros Hne. cbn [debounce_n debounce]. rewrite Hne. cbn [negb].
  rewrite debounce_n_same. unfold c_StateSettleTime.
  destruct (N.ltb_spec 3 0); [lia|]. reflexivity.
Qed.

(** From any start, [c_StateSettleTime + 3] ticks with the same proposal
    commit it, and it stays committed. *)
Lemma debounce_n_commits x n s :
  (N.to_nat c_StateSettleTime + 3 <= n)%nat ->
  fst (fst (debounce_n eqb x n s)) = x.
Proof.
  unfold c_StateSettleTime. intros Hn. destruct s as [[st pend] age].
  destruct (eqb pend x) eqn:Hp.
  - apply eqb_eq in Hp. subst pend. rewrite debounce_n_same.
    unfold c_StateSettleTime.
    destruct (N.ltb_spec 3 age).
    + destruct n; [lia|]. reflexivity.
    + destruct (N.leb_spec (age + N.of_nat n) (3 + 1)); [lia|]. reflexivity.
  - destruct n as [|n]; [lia|]. rewrite debounce_n_fresh by assumption.
    unfold c_StateSettleTime.
    destruct (N.leb_spec (N.of_nat n) (3 + 1)); [lia|]. reflexivity.
Qed.

(** A tick never commits anything but its own proposal. *)
Lemma debounce_commit new s :
  fst (fst (debounce eqb new s)) = fst (fst s) \/
  fst (fst (debounce eqb new s)) = new.
Proof.
  destruct s as [[st pend] age]. unfold debounce.
  destruct (negb (eqb pend new)); [now left|].
  destruct (c_StateSettleTime <? age)%N; [now right | now left].
Qed.
End DebounceFacts.

(** [determine_cellstate] runs the debounce block on the shunt variables
    and on the cell variables. *)
Lemma shunt_view_tick v g :
  shunt_view (classify_tick v g) =
  debounce Bool.eqb (shunting_new (shunting g) v) (shunt_view g).
Proof.
  unfold classify_tick, determine_cellstate, shunt_view, debounce.
  destruct g as [cv buf idx cs cp ca sh sp sa lc].
  cbn [set_cellvoltage cellvoltage cellstate shunting shunting_pending
       shunting_pending_age cellstate_pending cellstate_pending_age].
  rewrite cellstate_new_not_invalid.
  destruct (negb (Bool.eqb sp (shunting_new sh v)));
    destruct (c_StateSettleTime <? sa)%N;
    cbn [set_shunt set_cellvoltage cellvoltage cellstate shunting
         shunting_pending shunting_pending_age cellstate_pending
         cellstate_pending_age avg_buffer avg_index last_cutoff_age];
    destruct (negb (CellState_eqb cp (cellstate_new cs v)));
    destruct (c_StateSettleTime <? ca)%N; reflexivity.
Qed.

Lemma cell_view_tick v g :
  cell_view (classify_tick v g) =
  debounce CellState_eqb (cellstate_new (cellstate g) v) (cell_view g).
Proof.
  unfold classify_tick, determine_cellstate, cell_view, debounce.
  destruct g as [cv buf idx cs cp ca sh sp sa lc].
  cbn [set_cellvoltage cellvoltage cellstate shunting shunting_pending
       shunting_pending_age cellstate_pending cellstate_pending_age].
  rewrite cellstate_new_not_invalid.
  destruct (negb (Bool.eqb sp (shunting_new sh v)));
    destruct (c_StateSettleTime <? sa)%N;
    cbn [set_shunt set_cellvoltage cellvoltage cellstate shunting
         shunting_pending shunting_pending_age cellstate_pending
         cellstate_pending_age avg_buffer avg_index last_cutoff_age];
    destruct (negb (CellState_eqb cp (cellstate_new cs v)));
    destruct (c_StateSettleTime <? ca)%N; reflexivity.
Qed.

Lemma classify_run_cons v vs g :
  classify_run (v :: vs) g = classify_run vs (classify_tick v g).
Proof. reflexivity. Qed.

(** A run whose every tick proposes [x], seen on the cell variables. *)
Lemma cell_view_run x vs : forall g,
  Forall (fun v => forall cs, cellstate_new cs v = x) vs ->
  cell_view (classify_run vs g) =
  debounce_n CellState_eqb x (length vs) (cell_view g).
Proof.
  induction vs as [|v vs IH]; intros g Hvs; [reflexivity|].
  inversion Hvs as [|? ? Hv Hrest]; subst.
  rewrite classify_run_cons, IH by assumption.
  cbn [length debounce_n]. now rewrite cell_view_tick, Hv.
Qed.

(** The same on the shunt variables. *)
Lemma shunt_view_run x vs : forall g,
  Forall (fun v => forall sh, shunting_new sh v = x) vs ->
  shunt_view (classify_run vs g) =
  debounce_n Bool.eqb x (length vs) (shunt_view g).
Proof.
  induction vs as [|v vs IH]; intros g Hvs; [reflexivity|].
  inversion Hvs as [|? ? Hv Hrest]; subst.
  rewrite classify_run_cons, IH by assumption.
  cbn [length debounce_n]. now rewrite shunt_view_tick, Hv.
Qed.

Lemma determine_cellstate_tick g :
  determine_cellstate g = classify_tick (cellvoltage g) g.
Proof. unfold classify_tick. now destruct g. Qed.

(** A tick leaves the committed state alone or commits its own proposal. *)
Lemma cellstate_tick_cases v g :
  cellstate (classify_tick v g) = cellstate g \/
  cellstate (classify_tick v g) = cellstate_new (cellstate g) v.
Proof.
  pose proof (debounce_commit CellState_eqb
                (cellstate_new (cellstate g) v) (cell_view g)) as H.
  rewrite <- cell_view_tick in H. exact H.
Qed.

(** While the proposal from state [x] is [x] itself, [x] stays committed. *)
Lemma cellstate_run_stays x vs : forall g,
  Forall (fun v => cellstate_new x v = x) vs ->
  cellstate g = x ->
  cellstate (classify_run vs g) = x.
Proof.
  induction vs as [|v vs IH]; intros g Hvs Hg; [exact Hg|].
  inversion Hvs as [|? ? Hv Hrest]; subst.
  rewrite classify_run_cons. apply IH; [assumption|].
  destruct (cellstate_tick_cases v g) as [H|H]; rewrite H; congruence.
Qed.

Lemma cellstate_run_commits x vs g :
  Forall (fun v => forall cs, cellstate_new cs v = x) vs ->
  (N.to_nat c_StateSettleTime + 3 <= length vs)%nat ->
  cellstate (classify_run vs g) = x.
Proof.
  intros Hvs Hlen.
  change (cellstate (classify_run vs g))
    with (fst (fst (cell_view (classify_run vs g)))).
  rewrite (cell_view_run x) by assumption.
  now apply (debounce_n_commits CellState_eqb CellState_eqb_eq).
Qed.

Lemma shunting_run_commits x vs g :
  Forall (fun v => forall sh, shunting_new sh v = x) vs ->
  (N.to_nat c_StateSettleTime + 3 <= length vs)%nat ->
  shunting (classify_run vs g) = x.
Proof.
  intros Hvs Hlen.
  change (shunting (classify_run vs g))
    with (fst (fst (shunt_view (classify_run vs g)))).
  rewrite (shunt_view_run x) by assumption.
  now apply (debounce_n_commits Bool.eqb Bool.eqb_true_iff).
Qed.

(** C2 (amended). From every start state of the debounced cell state
    machine, a run of at least settle-tick + 3 consecutive ticks with the
    filtered voltage strictly between low-voltage-disengage and
    high-voltage-disengage ends with committed state Normal, and a run of at
    least settle-tick + 3 consecutive ticks at or above high-voltage-engage
    ends with committed state OverVoltageCutoff. *)
Theorem sustained_band_commits g vs :
  (N.to_nat c_StateSettleTime + 3 <= length vs)%nat ->
  (Forall in_safe_band vs -> cellstate (classify_run vs g) = e_CellNorm) /\
  (Forall (fun v => c_HVoltage_engage <= v) vs ->
   cellstate (classify_run vs g) = e_CellHVC).
Proof.
  intros Hlen. split; intros Hvs; apply cellstate_run_commits;
    try assumption; (eapply Forall_impl; [exact Hvs|]); cbv beta;
    intros v Hv cs.
  - now apply cellstate_new_safe_band.
  - now apply cellstate_new_high.
Qed.

Lemma sustained_band_commits_witness :
  cellstate (classify_run (repeat 3200 6) power_on) = e_CellNorm /\
  cellstate (classify_run (repeat 3700 6) power_on) = e_CellHVC.
Proof.
  split.
  - apply (proj1 (sustained_band_commits power_on (repeat 3200 6)
                    ltac:(simpl; lia))).
    repeat constructor.
  - apply (proj2 (sustained_band_commits power_on (repeat 3700 6)
                    ltac:(simpl; lia))).
    repeat constructor; unfold c_HVoltage_engage; lia.
Defined.

(** C2, as claimed, fails: settle-tick + 1 ticks are not enough.  After
    power-on, four ticks inside the safe band leave the committed state
    Invalid (the first tick only replaces the pending state, the next three
    age it to 3, which does not exceed the settle time), and four ticks at
    or above high-voltage-engage do so as well. *)
Lemma settle_plus_one_too_short :
  length (repeat 3200 4) = (N.to_nat c_StateSettleTime + 1)%nat /\
  Forall in_safe_band (repeat 3200 4) /\
  cell_view (classify_run (repeat 3200 4) power_on)
    = (e_CellInvalid, e_CellNorm, 3%N) /\
  Forall (fun v => c_HVoltage_engage <= v) (repeat 3700 4) /\
  cell_view (classify_run (repeat 3700 4) power_on)
    = (e_CellInvalid, e_CellHVC, 3%N).
Proof.
  repeat split; repeat constructor;
    unfold c_HVoltage_engage, c_LVoltage_disengage, c_HVoltage_disengage; lia.
Qed.

(** The bound settle-tick + 3 is the least one: with settle-tick + 2 ticks a
    committed OverVoltageCutoff survives a run in the safe band. *)
Lemma settle_plus_two_too_short :
  cell_view (classify_run (repeat 3700 6) power_on)
    = (e_CellHVC, e_CellHVC, 4%N) /\
  cell_view (classify_run (repeat 3700 6 ++ repeat 3200 5) power_on)
    = (e_CellHVC, e_CellNorm, 4%N) /\
  cell_view (classify_run (repeat 3700 6 ++ repeat 3200 6) power_on)
    = (e_CellNorm, e_CellNorm, 4%N).
Proof. repeat split. Qed.

(** C4. With OverVoltageCutoff committed and the filtered voltage held at
    exactly high-voltage-disengage for any number [n] of ticks, the committed
    state is still OverVoltageCutoff and the classifier's next proposal is
    again OverVoltageCutoff; from OverVoltageCutoff, Normal is proposed only
    for a voltage strictly below high-voltage-disengage (and above
    low-voltage-engage, where rule 7 takes over). *)
Theorem hvc_holds_at_disengage g n v :
  cellstate g = e_CellHVC ->
  cellstate (classify_run (repeat c_HVoltage_disengage n) g) = e_CellHVC /\
  cellstate_new (cellstate (classify_run (repeat c_HVoltage_disengage n) g))
                c_HVoltage_disengage = e_CellHVC /\
  (cellstate_new e_CellHVC v = e_CellNorm <->
   c_LVoltage_engage < v < c_HVoltage_disengage).
Proof.
  intros Hg.
  assert (Hrun : cellstate (classify_run (repeat c_HVoltage_disengage n) g)
                 = e_CellHVC).
  { apply cellstate_run_stays; [|exact Hg].
    clear. induction n; simpl; constructor; auto. }
  rewrite Hrun. split; [reflexivity|]. split; [reflexivity|].
  rewrite cellstate_new_bands. split.
  - thresholds v; discriminate.
  - intros [H1 H2]. thresholds v.
Qed.

Lemma hvc_holds_at_disengage_witness :
  cellstate (classify_run (repeat c_HVoltage_disengage 10)
               (set_cell e_CellHVC e_CellNorm 4 power_on)) = e_CellHVC.
Proof.
  apply (hvc_holds_at_disengage
           (set_cell e_CellHVC e_CellNorm 4 power_on) 10 0).
  reflexivity.
Defined.

Lemma Forall_repeat_same {A} (P : A -> Prop) x n : P x -> Forall P (repeat x n).
Proof. intros Hx. induction n; simpl; constructor; auto. Qed.

(** C6. From committed Normal with shunting false, holding the filtered
    voltage at shunt-engage + 1 (which is below high-voltage-disengage)
    keeps the committed cell state Normal after every number [n] of ticks,
    while after settle-tick + 3 ticks, and after any [m] more, the committed
    shunting flag is true. *)
Theorem shunt_engages_while_normal g n m :
  cellstate g = e_CellNorm ->
  shunting g = false ->
  c_ShuntVoltage_engage + 1 < c_HVoltage_disengage /\
  cellstate (classify_run (repeat (c_ShuntVoltage_engage + 1) n) g)
    = e_CellNorm /\
  shunting (classify_run (repeat (c_ShuntVoltage_engage + 1)
                                 (N.to_nat c_StateSettleTime + 3 + m)) g)
    = true.
Proof.
  intros Hcs Hsh. split; [reflexivity|]. split.
  - apply cellstate_run_stays; [|exact Hcs].
    apply Forall_repeat_same. reflexivity.
  - apply shunting_run_commits.
    + apply Forall_repeat_same. intros sh. now destruct sh.
    + rewrite repeat_length. lia.
Qed.

Lemma shunt_engages_while_normal_witness :
  cellstate (classify_run (repeat 3501 9)
               (set_cell e_CellNorm e_CellNorm 4 power_on)) = e_CellNorm /\
  shunting (classify_run (repeat 3501 6)
              (set_cell e_CellNorm e_CellNorm 4 power_on)) = true.
Proof.
  pose proof (shunt_engages_while_normal
                (set_cell e_CellNorm e_CellNorm 4 power_on) 9 0
                eq_refl eq_refl) as [_ [Hc Hs]].
  split; [exact Hc | exact Hs].
Defined.

(** C7. With committed and pending state both Normal, one tick at or above
    high-voltage-engage only makes OverVoltageCutoff pending with age 0; the
    next tick, back strictly inside the safe band, replaces the pending
    state by Normal with age 0; and however long the voltage then stays in
    the safe band, the committed state is Normal, so OverVoltageCutoff is
    never committed. *)
Theorem single_spike_not_committed g spike v vs :
  cellstate g = e_CellNorm ->
  cellstate_pending g = e_CellNorm ->
  c_HVoltage_engage <= spike ->
  in_safe_band v ->
  Forall in_safe_band vs ->
  cell_view (classify_tick spike g) = (e_CellNorm, e_CellHVC, 0%N) /\
  cell_view (classify_run [spike; v] g) = (e_CellNorm, e_CellNorm, 0%N) /\
  cellstate (classify_run (spike :: v :: vs) g) = e_CellNorm.
Proof.
  intros Hcs Hp Hspike Hv Hvs.
  assert (H1 : cell_view (classify_tick spike g)
               = (e_CellNorm, e_CellHVC, 0%N)).
  { rewrite cell_view_tick, cellstate_new_high by assumption.
    unfold cell_view. now rewrite Hcs, Hp. }
  assert (H2 : cell_view (classify_run [spike; v] g)
               = (e_CellNorm, e_CellNorm, 0%N)).
  { change (classify_run [spike; v] g)
      with (classify_tick v (classify_tick spike g)).
    rewrite cell_view_tick, cellstate_new_safe_band by assumption.
    now rewrite H1. }
  split; [exact H1|]. split; [exact H2|].
  change (classify_run (spike :: v :: vs) g)
    with (classify_run vs (classify_run [spike; v] g)).
  apply cellstate_run_stays.
  - eapply Forall_impl; [exact Hvs|]. cbv beta. intros.
    now apply cellstate_new_safe_band.
  - change (fst (fst (cell_view (classify_run [spike; v] g))) = e_CellNorm).
    now rewrite H2.
Qed.

Lemma single_spike_not_committed_witness :
  cell_view (classify_tick 3650 (set_cell e_CellNorm e_CellNorm 4 power_on))
    = (e_CellNorm, e_CellHVC, 0%N) /\
  cell_view (classify_run [3650; 3300]
               (set_cell e_CellNorm e_CellNorm 4 power_on))
    = (e_CellNorm, e_CellNorm, 0%N) /\
  cellstate (classify_run [3650; 3300; 3300; 3310; 3320; 3300; 3300; 3300]
               (set_cell e_CellNorm e_CellNorm 4 power_on)) = e_CellNorm.
Proof.
  apply (single_spike_not_committed
           (set_cell e_CellNorm e_CellNorm 4 power_on) 3650 3300
           [3300; 3310; 3320; 3300; 3300; 3300] eq_refl eq_refl).
  - unfold c_HVoltage_engage. lia.
  - unfold in_safe_band, c_LVoltage_disengage, c_HVoltage_disengage. lia.
  - repeat constructor;
      unfold c_LVoltage_disengage, c_HVoltage_disengage; lia.
Defined.

(** C9. The classifier never proposes Invalid, so the guard in front of the
    cell debounce block never fires: from Invalid the proposal is
    UnderVoltageCutoff, OverVoltageCutoff or Normal according to the voltage
    band, every voltage falling in one of the three; from another state the
    proposal is that state or one of the same three; and
    [determine_cellstate] leaves the committed state as it is or commits a
    state that is not Invalid. *)
Theorem proposal_never_invalid cs v g :
  CellState_eqb (cellstate_new cs v) e_CellInvalid = false /\
  cellstate_new e_CellInvalid v =
    (if v <=? c_LVoltage_engage then e_CellLVC
     else if c_HVoltage_engage <=? v then e_CellHVC
     else e_CellNorm) /\
  (cellstate_new cs v = cs \/
   cellstate_new cs v = e_CellNorm \/
   cellstate_new cs v = e_CellHVC \/
   cellstate_new cs v = e_CellLVC) /\
  (cellstate (determine_cellstate g) = cellstate g \/
   CellState_eqb (cellstate (determine_cellstate g)) e_CellInvalid = false).
Proof.
  split; [apply cellstate_new_not_invalid|]. split.
  { rewrite cellstate_new_bands. thresholds v. }
  split.
  { rewrite cellstate_new_bands. destruct cs; thresholds v; auto. }
  rewrite determine_cellstate_tick.
  destruct (cellstate_tick_cases (cellvoltage g) g) as [H|H]; [now left|].
  right. rewrite H. apply cellstate_new_not_invalid.
Qed.

(** ** The voltage filter *)

Lemma sum_buffer_exact buf :
  length buf = N.to_nat c_MovingAverageWindow ->
  sum_buffer buf = wrap_long (exact_sum buf).
Proof.
  intros Hlen.
  destruct buf as [|a [|b [|c [|d [|e [|? ?]]]]]]; try discriminate Hlen.
  unfold sum_buffer, exact_sum.
  change (N.to_nat c_MovingAverageWindow) with 5%nat.
  cbn [seq fold_left fold_right nth].
  rewrite (wrap_long_add_l (0 + a)), (wrap_long_add_l (0 + a + b)),
    (wrap_long_add_l (0 + a + b + c)), (wrap_long_add_l (0 + a + b + c + d)).
  apply (f_equal wrap_long). lia.
Qed.

Lemma moving_average_window_ok val g :
  window_ok g -> window_ok (snd (moving_average val g)).
Proof.
  unfold window_ok, moving_average. cbn [snd set_avg avg_buffer avg_index].
  intros [Hlen Hidx]. split.
  - now rewrite length_insert.
  - apply N.mod_lt. discriminate.
Qed.

Lemma push_n_window_ok val n : forall g,
  window_ok g -> window_ok (push_n val n g).
Proof.
  induction n as [|n IH]; intros g Hg; [exact Hg|].
  cbn [push_n]. apply IH. now apply moving_average_window_ok.
Qed.

(** A full window of pushes of [val] leaves [val] in every slot. *)
Lemma push_n_fills val g :
  window_ok g ->
  avg_buffer (push_n val (N.to_nat c_MovingAverageWindow) g)
  = repeat val (N.to_nat c_MovingAverageWindow).
Proof.
  unfold window_ok, c_MovingAverageWindow. intros [Hlen Hidx].
  destruct g as [cv buf idx cs cp ca sh sp sa lc].
  cbn [avg_buffer avg_index] in *.
  do 5 (destruct buf as [|? buf]; [discriminate Hlen|]).
  destruct buf; [|discriminate Hlen].
  assert (Hcases : (idx = 0 \/ idx = 1 \/ idx = 2 \/ idx = 3 \/ idx = 4)%N)
    by lia.
  destruct Hcases as [->|[->|[->|[->| ->]]]]; reflexivity.
Qed.

Lemma push_n_last val n : forall g,
  push_n val (S n) g = snd (moving_average val (push_n val n g)).
Proof.
  induction n as [|n IH]; intros g; [reflexivity|].
  change (push_n val (S (S n)) g)
    with (push_n val (S n) (snd (moving_average val g))).
  now rewrite IH.
Qed.

Lemma moving_average_mean val g :
  window_ok g ->
  fst (moving_average val g)
  = Z.quot (wrap_long (exact_sum (avg_buffer (snd (moving_average val g)))))
           (Z.of_N c_MovingAverageWindow).
Proof.
  intros Hg. apply (moving_average_window_ok val) in Hg as [Hlen _].
  rewrite <- sum_buffer_exact by exact Hlen. reflexivity.
Qed.

(** Every reading [readVcc] returns with the configured calibration factor,
    whatever the converter result, is small enough to be summed over the
    window in a [long]. *)
Lemma reading_fits adc val :
  readVcc (Z.of_N calibration_factor_custom) adc = Some val ->
  long_range (Z.of_N c_MovingAverageWindow * val).
Proof.
  unfold readVcc.
  change (Z.of_N calibration_factor_custom) with 1126400.
  change (Z.of_N c_MovingAverageWindow) with 5.
  destruct (Z.eqb_spec adc 0) as [|Hnz]; [discriminate|]. intros [= <-].
  assert (Hpos : forall d, 0 < d -> 0 <= Z.quot 1126400 d <= 1126400).
  { intros d Hd. rewrite Z.quot_div_nonneg by lia.
    pose proof (Z.div_mod 1126400 d ltac:(lia)) as Hdm.
    pose proof (Z.mod_pos_bound 1126400 d ltac:(lia)) as Hr.
    split; nia. }
  unfold long_range. change (2 ^ 31) with 2147483648.
  destruct (Z.lt_ge_cases 0 adc) as [Hadc|Hadc].
  - specialize (Hpos adc Hadc). lia.
  - specialize (Hpos (- adc) ltac:(lia)).
    rewrite Z.quot_opp_r in Hpos by exact Hnz. lia.
Qed.

(** C8. A push writes the reading into the slot under the cursor and into
    no other slot, advances the cursor by one modulo the window size, and
    returns the truncating integer mean of all slots; the last of
    window-size consecutive pushes of one reading returns exactly that
    reading.  The slots are summed in a [long]: the mean is stated where
    the sum of the slots is representable, the repeated push where
    window-size times the reading is, and this is the case for every
    reading the filter receives, that is for every value [readVcc] returns
    with the configured calibration factor. *)
Theorem moving_average_push g val :
  window_ok g ->
  let i := N.to_nat (avg_index g) in
  let g' := snd (moving_average val g) in
  avg_buffer g' !! i = Some val /\
  (forall j, j <> i -> avg_buffer g' !! j = avg_buffer g !! j) /\
  avg_index g' = ((avg_index g + 1) mod c_MovingAverageWindow)%N /\
  (long_range (exact_sum (avg_buffer g')) ->
   fst (moving_average val g)
     = Z.quot (exact_sum (avg_buffer g')) (Z.of_N c_MovingAverageWindow)) /\
  (long_range (Z.of_N c_MovingAverageWindow * val) ->
   fst (moving_average val
          (push_n val (N.to_nat c_MovingAverageWindow - 1) g)) = val) /\
  (forall adc,
     readVcc (Z.of_N calibration_factor_custom) adc = Some val ->
     fst (moving_average val
            (push_n val (N.to_nat c_MovingAverageWindow - 1) g)) = val).
Proof.
  intros Hg i g'. pose proof Hg as [Hlen Hidx].
  assert (Hsame : long_range (Z.of_N c_MovingAverageWindow * val) ->
                  fst (moving_average val
                         (push_n val (N.to_nat c_MovingAverageWindow - 1) g))
                  = val).
  { intros Hval.
    rewrite moving_average_mean by now apply push_n_window_ok.
    rewrite <- push_n_last.
    change (S (N.to_nat c_MovingAverageWindow - 1))
      with (N.to_nat c_MovingAverageWindow).
    rewrite push_n_fills by exact Hg.
    change (exact_sum (repeat val (N.to_nat c_MovingAverageWindow)))
      with (val + (val + (val + (val + (val + 0))))).
    change (Z.of_N c_MovingAverageWindow) with 5 in *.
    replace (val + (val + (val + (val + (val + 0))))) with (val * 5) by lia.
    rewrite wrap_long_small by (unfold long_range in *; lia).
    apply Z.quot_mul. discriminate. }
  split; [|split; [|split; [|split; [|split]]]].
  - apply list_lookup_insert_eq. unfold i. rewrite Hlen. lia.
  - intros j Hj. apply list_lookup_insert_ne.
    intros Heq. apply Hj. symmetry. exact Heq.
  - unfold g', moving_average. cbn [snd set_avg avg_index]. f_equal.
    unfold wrap_byte. apply N.mod_small.
    unfold c_MovingAverageWindow in Hidx. simpl. lia.
  - intros Hsum. rewrite moving_average_mean by exact Hg.
    fold g'. now rewrite wrap_long_small.
  - exact Hsame.
  - intros adc Hread. apply Hsame.
    now apply (reading_fits adc).
Qed.

Lemma moving_average_push_witness :
  fst (moving_average 3000 (push_n 3000 4 power_on)) = 3000 /\
  fst (moving_average 2895 (push_n 2895 4 power_on)) = 2895.
Proof.
  assert (Hok : window_ok power_on) by (split; reflexivity).
  split.
  - apply (proj1 (proj2 (proj2 (proj2 (proj2
             (moving_average_push power_on 3000 Hok)))))).
    unfold long_range. simpl. lia.
  - apply (proj2 (proj2 (proj2 (proj2 (proj2
             (moving_average_push power_on 2895 Hok))))) 389).
    reflexivity.
Defined.

(** ** The control loop and the recency counter *)

Lemma loop_at_switch vcc g :
  loop vcc g =
  let g1 := at_switch vcc g in
  let measure := [LED_OFF; SHUNT_OFF; delayMicroseconds 200] in
  match cellstate g1 with
  | e_CellLVC =>
      (set_last_cutoff_age 0%N g1,
       measure ++ [LOOP_OPEN; LED_OFF; SHUNT_OFF; deep_sleep WD_TIMEOUT_1000ms])
  | e_CellNorm =>
      let invert_led := (last_cutoff_age g1 <? c_RecentCutOffDuration)%N in
      let g2 := if invert_led then g1
                else set_last_cutoff_age c_NoCutoffEvent g1 in
      (g2,
       measure ++ [LOOP_CLOSE] ++
       if negb (shunting g2) then
         [SHUNT_OFF;
          if negb invert_led then LED_ON else LED_OFF;
          delay 20;
          if negb invert_led then LED_OFF else LED_ON;
          deep_sleep WD_TIMEOUT_1000ms]
       else
         [SHUNT_ON; LED_OFF; delay 500; LED_ON; delay 500;
          SHUNT_OFF; delay 100; LED_OFF])
  | e_CellHVC =>
      (set_last_cutoff_age 0%N g1,
       measure ++ [LOOP_OPEN; SHUNT_ON] ++
       concat (repeat [LED_OFF; delay 50; LED_ON; delay 50] 10) ++
       [SHUNT_OFF; delay 100])
  | e_CellInvalid =>
      (g1,
       measure ++ [LOOP_CLOSE; SHUNT_OFF] ++
       concat (repeat [LED_ON; delay 166; LED_OFF; delay 166] 3))
  end.
Proof.
  unfold loop, at_switch. cbv zeta.
  destruct (moving_average vcc _) as [avg g1]. reflexivity.
Qed.

Lemma determine_cellstate_last_cutoff_age g :
  last_cutoff_age (determine_cellstate g) = last_cutoff_age g.
Proof.
  unfold determine_cellstate.
  destruct g as [cv buf idx cs cp ca sh sp sa lc].
  cbn [cellvoltage cellstate shunting shunting_pending
       shunting_pending_age cellstate_pending cellstate_pending_age].
  destruct (CellState_eqb (cellstate_new cs cv) e_CellInvalid);
    destruct (negb (Bool.eqb sp (shunting_new sh cv)));
    destruct (c_StateSettleTime <? sa)%N;
    cbn [set_shunt set_cellvoltage cellvoltage cellstate shunting
         shunting_pending shunting_pending_age cellstate_pending
         cellstate_pending_age avg_buffer avg_index last_cutoff_age];
    try reflexivity;
    destruct (negb (CellState_eqb cp (cellstate_new cs cv)));
    destruct (c_StateSettleTime <? ca)%N; reflexivity.
Qed.

Lemma at_switch_last_cutoff_age vcc g :
  last_cutoff_age (at_switch vcc g) =
  if (last_cutoff_age g =? c_NoCutoffEvent)%N then last_cutoff_age g
  else wrap_uint (last_cutoff_age g + 1).
Proof.
  unfold at_switch, moving_average. cbv zeta.
  rewrite determine_cellstate_last_cutoff_age.
  now destruct (last_cutoff_age g =? c_NoCutoffEvent)%N.
Qed.

Lemma loop_cellstate vcc g :
  cellstate (fst (loop vcc g)) = cellstate (at_switch vcc g).
Proof.
  rewrite loop_at_switch. cbv zeta.
  generalize (at_switch vcc g). intros [cv buf idx cs cp ca sh sp sa lc].
  cbn [cellstate last_cutoff_age].
  destruct cs; cbn [fst]; try reflexivity.
  now destruct (lc <? c_RecentCutOffDuration)%N.
Qed.

Lemma loop_shunting vcc g :
  shunting (fst (loop vcc g)) = shunting (at_switch vcc g).
Proof.
  rewrite loop_at_switch. cbv zeta.
  generalize (at_switch vcc g). intros [cv buf idx cs cp ca sh sp sa lc].
  cbn [cellstate last_cutoff_age].
  destruct cs; cbn [fst]; try reflexivity.
  now destruct (lc <? c_RecentCutOffDuration)%N.
Qed.

(** The counter after a pass, from the counter before it and the state the
    pass commits. *)
Lemma loop_last_cutoff_age vcc g :
  last_cutoff_age (fst (loop vcc g)) =
  recency_step (cellstate (fst (loop vcc g))) (last_cutoff_age g).
Proof.
  rewrite loop_cellstate. rewrite loop_at_switch. cbv zeta.
  unfold recency_step. rewrite <- (at_switch_last_cutoff_age vcc g).
  generalize (at_switch vcc g). intros [cv buf idx cs cp ca sh sp sa lc].
  cbn [cellstate last_cutoff_age].
  destruct cs; cbn [fst]; try reflexivity.
  now destruct (lc <? c_RecentCutOffDuration)%N.
Qed.

(** The output of a pass that commits Normal without shunting. *)
Lemma loop_normal_pass vcc g :
  cellstate (fst (loop vcc g)) = e_CellNorm ->
  shunting (fst (loop vcc g)) = false ->
  snd (loop vcc g) =
  normal_pass (last_cutoff_age (at_switch vcc g) <? c_RecentCutOffDuration)%N.
Proof.
  rewrite loop_cellstate, loop_shunting, loop_at_switch. cbv zeta.
  generalize (at_switch vcc g). intros [cv buf idx cs cp ca sh sp sa lc].
  cbn [cellstate shunting last_cutoff_age].
  intros -> ->. cbn [snd].
  now destruct (lc <? c_RecentCutOffDuration)%N.
Qed.

Lemma fold_left_cons {A B} (f : A -> B -> A) x l a :
  fold_left f (x :: l) a = fold_left f l (f a x).
Proof. reflexivity. Qed.

Lemma run_nil g : run [] g = g.
Proof. reflexivity. Qed.

Lemma run_cons vcc vccs g : run (vcc :: vccs) g = run vccs (fst (loop vcc g)).
Proof. exact (fold_left_cons _ vcc vccs g). Qed.

Lemma run_app vccs1 vccs2 g : run (vccs1 ++ vccs2) g = run vccs2 (run vccs1 g).
Proof. apply fold_left_app. Qed.

Lemma every_tick_nil p g : every_tick p [] g = true.
Proof. reflexivity. Qed.

Lemma every_tick_cons p vcc vccs g :
  every_tick p (vcc :: vccs) g =
  p (cellstate (fst (loop vcc g))) && every_tick p vccs (fst (loop vcc g)).
Proof. reflexivity. Qed.

Lemma every_tick_app p vccs1 vccs2 : forall g,
  every_tick p (vccs1 ++ vccs2) g =
  every_tick p vccs1 g && every_tick p vccs2 (run vccs1 g).
Proof.
  induction vccs1 as [|vcc vccs1 IH]; intros g.
  - now rewrite app_nil_l, every_tick_nil, run_nil.
  - rewrite <- app_comm_cons, !every_tick_cons, IH, run_cons.
    now rewrite andb_assoc.
Qed.

Lemma is_norm_eq cs : is_norm cs = true -> cs = e_CellNorm.
Proof. apply CellState_eqb_eq. Qed.

Lemma recency_step_norm a :
  (a < c_RecentCutOffDuration)%N ->
  recency_step e_CellNorm a =
  if (a + 1 <? c_RecentCutOffDuration)%N then (a + 1)%N else c_NoCutoffEvent.
Proof.
  unfold recency_step, c_RecentCutOffDuration, c_NoCutoffEvent. intros Ha.
  destruct (N.eqb_spec a 65535); [lia|].
  rewrite wrap_uint_small by (simpl; lia). reflexivity.
Qed.

Lemma recency_step_pinned :
  recency_step e_CellNorm c_NoCutoffEvent = c_NoCutoffEvent.
Proof. reflexivity. Qed.

(** The counter along passes that all commit Normal. *)
Lemma norm_run_last_cutoff_age vccs : forall g,
  every_tick is_norm vccs g = true ->
  ((last_cutoff_age g < c_RecentCutOffDuration)%N ->
   last_cutoff_age (run vccs g) =
   if (last_cutoff_age g + N.of_nat (length vccs) <? c_RecentCutOffDuration)%N
   then (last_cutoff_age g + N.of_nat (length vccs))%N
   else c_NoCutoffEvent) /\
  (last_cutoff_age g = c_NoCutoffEvent ->
   last_cutoff_age (run vccs g) = c_NoCutoffEvent).
Proof.
  induction vccs as [|vcc vccs IH]; intros g Hall.
  - rewrite run_nil. split; [|auto]. intros Ha.
    rewrite N.add_0_r. now apply N.ltb_lt in Ha as ->.
  - rewrite every_tick_cons in Hall.
    apply andb_true_iff in Hall as [Hn Hall].
    pose proof (loop_last_cutoff_age vcc g) as Hstep.
    specialize (IH _ Hall). rewrite run_cons. clear Hall.
    revert Hn Hstep IH. generalize (fst (loop vcc g)). intros g1 Hn Hstep IH.
    apply is_norm_eq in Hn. rewrite Hn in Hstep. clear Hn.
    destruct IH as [IHlt IHpin].
    replace (N.of_nat (length (vcc :: vccs)))
      with (1 + N.of_nat (length vccs))%N by (cbn [length]; lia).
    split.
    + intros Ha. rewrite recency_step_norm in Hstep by exact Ha.
      destruct (N.ltb_spec (last_cutoff_age g + 1) c_RecentCutOffDuration)
        as [Hlt|Hge].
      * rewrite IHlt by (rewrite Hstep; exact Hlt). rewrite Hstep.
        now rewrite N.add_assoc.
      * rewrite IHpin by exact Hstep.
        destruct (N.ltb_spec
                    (last_cutoff_age g + (1 + N.of_nat (length vccs)))
                    c_RecentCutOffDuration); [lia | reflexivity].
    + intros Ha. apply IHpin. rewrite Hstep, Ha. apply recency_step_pinned.
Qed.

(** The counter facts of one pass, and of the passes after it, for any
    globals [g1] that relate to [g] as the result of a pass does. *)
Lemma recency_counter_of_step g g1 vccs :
  last_cutoff_age g1 = recency_step (cellstate g1) (last_cutoff_age g) ->
  (is_cutoff (cellstate g1) = true -> last_cutoff_age g1 = 0%N) /\
  (is_cutoff (cellstate g1) = false ->
   last_cutoff_age g = c_NoCutoffEvent ->
   last_cutoff_age g1 = c_NoCutoffEvent) /\
  (is_cutoff (cellstate g1) = false ->
   (last_cutoff_age g < c_NoCutoffEvent)%N ->
   last_cutoff_age g1 =
   if is_norm (cellstate g1)
      && (c_RecentCutOffDuration <=? last_cutoff_age g + 1)%N
   then c_NoCutoffEvent else (last_cutoff_age g + 1)%N) /\
  (is_cutoff (cellstate g1) = true ->
   every_tick is_norm vccs g1 = true ->
   ((N.of_nat (length vccs) < c_RecentCutOffDuration)%N ->
    last_cutoff_age (run vccs g1) = N.of_nat (length vccs) /\
    N.of_nat (length vccs) <> c_NoCutoffEvent) /\
   ((c_RecentCutOffDuration <= N.of_nat (length vccs))%N ->
    last_cutoff_age (run vccs g1) = c_NoCutoffEvent)).
Proof.
  intros Hstep.
  assert (Hzero : is_cutoff (cellstate g1) = true -> last_cutoff_age g1 = 0%N).
  { intros Hc. rewrite Hstep. now destruct (cellstate g1). }
  split; [exact Hzero|]. split; [|split].
  - intros Hc Ha. rewrite Hstep, Ha. now destruct (cellstate g1).
  - intros Hc Ha. rewrite Hstep. unfold recency_step.
    unfold c_NoCutoffEvent, c_RecentCutOffDuration in *.
    destruct (N.eqb_spec (last_cutoff_age g) 65535); [lia|].
    rewrite wrap_uint_small by (simpl; lia).
    destruct (cellstate g1); try discriminate Hc;
      cbn [is_norm CellState_eqb andb]; [reflexivity|].
    destruct (N.ltb_spec (last_cutoff_age g + 1) (30 * 60));
      destruct (N.leb_spec (30 * 60) (last_cutoff_age g + 1));
      try reflexivity; lia.
  - intros Hc Hall.
    destruct (norm_run_last_cutoff_age vccs _ Hall) as [Hlt _].
    rewrite (Hzero Hc) in Hlt. rewrite N.add_0_l in Hlt.
    specialize (Hlt ltac:(reflexivity)).
    unfold c_NoCutoffEvent, c_RecentCutOffDuration in *.
    split; intros Hlen; rewrite Hlt.
    + destruct (N.ltb_spec (N.of_nat (length vccs)) (30 * 60)); lia.
    + destruct (N.ltb_spec (N.of_nat (length vccs)) (30 * 60));
        [lia | reflexivity].
Qed.

(** C5. Every pass of [loop] first increments the recency counter unless
    it holds the sentinel.  A pass that ends with UnderVoltageCutoff or
    OverVoltageCutoff committed then resets it and leaves it at 0.  Any
    other pass leaves a counter that held the sentinel at the sentinel, and
    leaves the incremented counter otherwise, except that a pass ending in
    Normal pins it to the sentinel once the incremented value is no longer
    below the recent-cutoff duration.  After a pass that ends in a cutoff
    state, passes that all end in Normal leave the counter equal to their
    number (which is not the sentinel) while they are fewer than the
    recent-cutoff duration, and at the sentinel from exactly that many
    passes on. *)
Theorem recency_counter vcc g vccs :
  ((last_cutoff_age g = c_NoCutoffEvent ->
    last_cutoff_age (at_switch vcc g) = c_NoCutoffEvent) /\
   ((last_cutoff_age g < c_NoCutoffEvent)%N ->
    last_cutoff_age (at_switch vcc g) = (last_cutoff_age g + 1)%N)) /\
  (is_cutoff (cellstate (fst (loop vcc g))) = true ->
   last_cutoff_age (fst (loop vcc g)) = 0%N) /\
  (is_cutoff (cellstate (fst (loop vcc g))) = false ->
   last_cutoff_age g = c_NoCutoffEvent ->
   last_cutoff_age (fst (loop vcc g)) = c_NoCutoffEvent) /\
  (is_cutoff (cellstate (fst (loop vcc g))) = false ->
   (last_cutoff_age g < c_NoCutoffEvent)%N ->
   last_cutoff_age (fst (loop vcc g)) =
   if is_norm (cellstate (fst (loop vcc g)))
      && (c_RecentCutOffDuration <=? last_cutoff_age g + 1)%N
   then c_NoCutoffEvent else (last_cutoff_age g + 1)%N) /\
  (is_cutoff (cellstate (fst (loop vcc g))) = true ->
   every_tick is_norm vccs (fst (loop vcc g)) = true ->
   ((N.of_nat (length vccs) < c_RecentCutOffDuration)%N ->
    last_cutoff_age (run vccs (fst (loop vcc g))) = N.of_nat (length vccs) /\
    N.of_nat (length vccs) <> c_NoCutoffEvent) /\
   ((c_RecentCutOffDuration <= N.of_nat (length vccs))%N ->
    last_cutoff_age (run vccs (fst (loop vcc g))) = c_NoCutoffEvent)).
Proof.
  split.
  - rewrite at_switch_last_cutoff_age. unfold c_NoCutoffEvent. split.
    + intros Ha. now rewrite Ha.
    + intros Ha. destruct (N.eqb_spec (last_cutoff_age g) 65535); [lia|].
      apply wrap_uint_small. simpl. lia.
  - exact (recency_counter_of_step g (fst (loop vcc g)) vccs
             (loop_last_cutoff_age vcc g)).
Qed.

Lemma recency_counter_witness :
  last_cutoff_age
    (run (repeat 3200 1799)
       (fst (loop 3200 (run (repeat 2000 6 ++ repeat 3200 7) power_on))))
    = N.of_nat (length (repeat 3200 1799)) /\
  last_cutoff_age
    (run (repeat 3200 1800)
       (fst (loop 3200 (run (repeat 2000 6 ++ repeat 3200 7) power_on))))
    = c_NoCutoffEvent.
Proof.
  split.
  - refine (proj1 (proj1 (proj2 (proj2 (proj2 (proj2
              (recency_counter 3200
                 (run (repeat 2000 6 ++ repeat 3200 7) power_on)
                 (repeat 3200 1799))))) _ _) _)).
    + vm_compute. reflexivity.
    + vm_compute. reflexivity.
    + vm_compute. reflexivity.
  - refine (proj2 (proj2 (proj2 (proj2 (proj2
              (recency_counter 3200
                 (run (repeat 2000 6 ++ repeat 3200 7) power_on)
                 (repeat 3200 1800))))) _ _) _).
    + vm_compute. reflexivity.
    + vm_compute. reflexivity.
    + vm_compute. discriminate.
Defined.

(** ** The counter after power-on *)

Lemma counts_since_step n c cs :
  no_cutoff cs = true ->
  counts_since n c -> counts_since (n + 1) (recency_step cs c).
Proof.
  unfold counts_since, recency_step, c_RecentCutOffDuration, c_NoCutoffEvent.
  intros Hcs [Hlt Hge].
  destruct (N.ltb_spec n (30 * 60)) as [Hn|Hn].
  - rewrite (Hlt Hn). destruct (N.eqb_spec n 65535); [lia|].
    rewrite wrap_uint_small by (simpl; lia).
    destruct cs; try discriminate Hcs; [split; intros; lia|].
    destruct (N.ltb_spec (n + 1) (30 * 60)); split; intros; lia.
  - specialize (Hge Hn).
    destruct (N.eqb_spec c 65535) as [->|Hc].
    + destruct cs; try discriminate Hcs; simpl; split; intros; lia.
    + rewrite wrap_uint_small by (simpl; lia).
      destruct cs; try discriminate Hcs; [split; intros; lia|].
      destruct (N.ltb_spec (c + 1) (30 * 60)); split; intros; lia.
Qed.

Lemma no_cutoff_run_counts vccs : forall g n,
  every_tick no_cutoff vccs g = true ->
  counts_since n (last_cutoff_age g) ->
  counts_since (n + N.of_nat (length vccs)) (last_cutoff_age (run vccs g)).
Proof.
  induction vccs as [|vcc vccs IH]; intros g n Hall Hinv.
  - rewrite run_nil. cbn [length N.of_nat]. now rewrite N.add_0_r.
  - rewrite every_tick_cons in Hall.
    apply andb_true_iff in Hall as [Hcs Hall].
    rewrite run_cons.
    replace (n + N.of_nat (length (vcc :: vccs)))%N
      with (n + 1 + N.of_nat (length vccs))%N by (cbn [length]; lia).
    apply IH; [exact Hall|].
    rewrite loop_last_cutoff_age. now apply counts_since_step.
Qed.

Lemma loop_normal_pass_counter vcc g :
  cellstate (fst (loop vcc g)) = e_CellNorm ->
  shunting (fst (loop vcc g)) = false ->
  snd (loop vcc g) =
  normal_pass
    ((if (last_cutoff_age g =? c_NoCutoffEvent)%N then last_cutoff_age g
      else wrap_uint (last_cutoff_age g + 1)) <? c_RecentCutOffDuration)%N.
Proof.
  intros Hcs Hsh. rewrite <- (at_switch_last_cutoff_age vcc g).
  now apply loop_normal_pass.
Qed.

(** Pass [S n] after power-on, for any globals [g1] and output [out] that
    relate to the globals [g] before it as the results of a pass do. *)
Lemma pass_after_power_on (n : nat) g g1 (out : list io) :
  counts_since (N.of_nat n) (last_cutoff_age g) ->
  no_cutoff (cellstate g1) = true ->
  last_cutoff_age g1 = recency_step (cellstate g1) (last_cutoff_age g) ->
  (cellstate g1 = e_CellNorm -> shunting g1 = false ->
   out = normal_pass
           ((if (last_cutoff_age g =? c_NoCutoffEvent)%N then last_cutoff_age g
             else wrap_uint (last_cutoff_age g + 1))
            <? c_RecentCutOffDuration)%N) ->
  ((N.of_nat (S n) < c_RecentCutOffDuration)%N ->
   last_cutoff_age g1 = N.of_nat (S n)) /\
  (cellstate g1 = e_CellNorm -> shunting g1 = false ->
   out = normal_pass (N.of_nat (S n) <? c_RecentCutOffDuration)%N) /\
  (cellstate g1 = e_CellNorm ->
   (c_RecentCutOffDuration <= N.of_nat (S n))%N ->
   last_cutoff_age g1 = c_NoCutoffEvent).
Proof.
  intros Hinv Hcs Hstep Hout.
  pose proof (counts_since_step _ _ _ Hcs Hinv) as Hinv'.
  rewrite <- Hstep in Hinv'.
  replace (N.of_nat n + 1)%N with (N.of_nat (S n)) in Hinv' by lia.
  split; [exact (proj1 Hinv')|].
  destruct Hinv as [Hlt Hge].
  unfold recency_step, c_RecentCutOffDuration, c_NoCutoffEvent in *.
  split.
  - intros Hn Hsh. rewrite (Hout Hn Hsh). f_equal.
    destruct (N.ltb_spec (N.of_nat n) (30 * 60)) as [Hk|Hk].
    + rewrite (Hlt Hk). destruct (N.eqb_spec (N.of_nat n) 65535); [lia|].
      rewrite wrap_uint_small by (simpl; lia). f_equal. lia.
    + specialize (Hge Hk).
      destruct (N.ltb_spec (N.of_nat (S n)) (30 * 60)); [lia|].
      destruct (N.eqb_spec (last_cutoff_age g) 65535) as [Hc|Hc].
      * now rewrite Hc.
      * rewrite wrap_uint_small by (simpl; lia).
        destruct (N.ltb_spec (last_cutoff_age g + 1) (30 * 60));
          [lia | reflexivity].
  - intros Hn Hk. rewrite Hstep, Hn.
    destruct (N.ltb_spec (N.of_nat n) (30 * 60)) as [Hk'|Hk'].
    + rewrite (Hlt Hk'). destruct (N.eqb_spec (N.of_nat n) 65535); [lia|].
      rewrite wrap_uint_small by (simpl; lia).
      destruct (N.ltb_spec (N.of_nat n + 1) (30 * 60)); [lia | reflexivity].
    + specialize (Hge Hk').
      destruct (N.eqb_spec (last_cutoff_age g) 65535) as [Hc|Hc];
        [now rewrite Hc|].
      rewrite wrap_uint_small by (simpl; lia).
      destruct (N.ltb_spec (last_cutoff_age g + 1) (30 * 60));
        [lia | reflexivity].
Qed.

(** C10 (amended). After power-on the recency counter is 0, not the
    sentinel, and it counts every pass of [loop] since power-on, those that
    end in Invalid included.  As long as no pass commits a cutoff state: a
    pass whose number since power-on is below the recent-cutoff duration
    leaves the counter at that number; a pass that ends in Normal without
    shunting gives the inverted indicator pulse exactly when its number is
    below the recent-cutoff duration, and the plain pulse otherwise; and a
    pass that ends in Normal with a number at or above the recent-cutoff
    duration leaves the counter at the sentinel. *)
Theorem power_on_recency vccs vcc :
  every_tick no_cutoff (vccs ++ [vcc]) power_on = true ->
  last_cutoff_age power_on = 0%N /\
  ((N.of_nat (S (length vccs)) < c_RecentCutOffDuration)%N ->
   last_cutoff_age (fst (loop vcc (run vccs power_on)))
     = N.of_nat (S (length vccs))) /\
  (cellstate (fst (loop vcc (run vccs power_on))) = e_CellNorm ->
   shunting (fst (loop vcc (run vccs power_on))) = false ->
   snd (loop vcc (run vccs power_on))
     = normal_pass (N.of_nat (S (length vccs)) <? c_RecentCutOffDuration)%N) /\
  (cellstate (fst (loop vcc (run vccs power_on))) = e_CellNorm ->
   (c_RecentCutOffDuration <= N.of_nat (S (length vccs)))%N ->
   last_cutoff_age (fst (loop vcc (run vccs power_on))) = c_NoCutoffEvent).
Proof.
  intros Hall.
  rewrite every_tick_app, every_tick_cons, every_tick_nil, andb_true_r in Hall.
  apply andb_true_iff in Hall as [Hpre Hlast].
  assert (H0 : counts_since 0 (last_cutoff_age power_on)).
  { split; [reflexivity|]. unfold c_RecentCutOffDuration. lia. }
  pose proof (no_cutoff_run_counts vccs power_on 0%N Hpre H0) as Hinv.
  rewrite N.add_0_l in Hinv.
  split; [reflexivity|].
  exact (pass_after_power_on (length vccs) (run vccs power_on)
           (fst (loop vcc (run vccs power_on)))
           (snd (loop vcc (run vccs power_on)))
           Hinv Hlast
           (loop_last_cutoff_age vcc (run vccs power_on))
           (loop_normal_pass_counter vcc (run vccs power_on))).
Qed.

Lemma power_on_recency_witness :
  (last_cutoff_age (fst (loop 3200 (run (repeat 3200 9) power_on)))
     = N.of_nat (S (length (repeat 3200 9))) /\
   snd (loop 3200 (run (repeat 3200 9) power_on)) = normal_pass true) /\
  (last_cutoff_age (fst (loop 3200 (run (repeat 3200 1799) power_on)))
     = c_NoCutoffEvent /\
   snd (loop 3200 (run (repeat 3200 1799) power_on)) = normal_pass false).
Proof.
  split.
  - pose proof (power_on_recency (repeat 3200 9) 3200
                  ltac:(vm_compute; reflexivity)) as [_ [Hcount [Hpulse _]]].
    split.
    + apply Hcount. vm_compute. reflexivity.
    + apply Hpulse; vm_compute; reflexivity.
  - pose proof (power_on_recency (repeat 3200 1799) 3200
                  ltac:(vm_compute; reflexivity)) as [_ [_ [Hpulse Hpin]]].
    split.
    + apply Hpin; vm_compute; [reflexivity | discriminate].
    + apply Hpulse; vm_compute; reflexivity.
Defined.

(** C10, as claimed, fails: the passes that end in Invalid during start-up
    use up part of the recent-cutoff duration.  With a steady 3200 mV, pass
    1800 after power-on is only the 1795th pass that ends in Normal, and it
    already gives the plain pulse and pins the counter to the sentinel. *)
Lemma start_up_shortens_inversion :
  every_tick no_cutoff (repeat 3200 1800) power_on = true /\
  count_norm (repeat 3200 1800) power_on = 1795%nat /\
  (N.of_nat 1795 < c_RecentCutOffDuration)%N /\
  cellstate (fst (loop 3200 (run (repeat 3200 1799) power_on))) = e_CellNorm /\
  shunting (fst (loop 3200 (run (repeat 3200 1799) power_on))) = false /\
  snd (loop 3200 (run (repeat 3200 1799) power_on)) = normal_pass false /\
  last_cutoff_age (fst (loop 3200 (run (repeat 3200 1799) power_on)))
    = c_NoCutoffEvent.
Proof. vm_compute. repeat split. Qed.

(** ** The end-to-end scenario *)

(** C3 (amended). In the scenario (window of 5 slots holding 3200 mV,
    settle time 3, readings 3200, 3200, 3200 and then 2850 for good) the
    filtered value is at or below low-voltage-engage for the first time
    after tick 8, and UnderVoltageCutoff is committed for the first time
    after tick 13, that is 5 = settle-tick + 2 ticks later: tick 8 replaces
    the pending state, ticks 9 to 12 age it to 4, tick 13 commits. *)
Theorem scenario_commit_latency :
  map (fun k => cellvoltage (scenario_at k)) (seq 1 13)
    = [3200; 3200; 3200; 3130; 3060; 2990; 2920;
       2850; 2850; 2850; 2850; 2850; 2850] /\
  map (fun k => cell_view (scenario_at k)) (seq 1 13)
    = [(e_CellInvalid, e_CellNorm, 0%N); (e_CellInvalid, e_CellNorm, 1%N);
       (e_CellInvalid, e_CellNorm, 2%N); (e_CellInvalid, e_CellNorm, 3%N);
       (e_CellInvalid, e_CellNorm, 4%N); (e_CellNorm, e_CellNorm, 4%N);
       (e_CellNorm, e_CellNorm, 4%N);
       (e_CellNorm, e_CellLVC, 0%N); (e_CellNorm, e_CellLVC, 1%N);
       (e_CellNorm, e_CellLVC, 2%N); (e_CellNorm, e_CellLVC, 3%N);
       (e_CellNorm, e_CellLVC, 4%N); (e_CellLVC, e_CellLVC, 4%N)] /\
  first_tick (fun g => cellvoltage g <=? c_LVoltage_engage) 20 = Some 8%nat /\
  first_tick (fun g => CellState_eqb (cellstate g) e_CellLVC) 20
    = Some (8 + (N.to_nat c_StateSettleTime + 2))%nat.
Proof. vm_compute. repeat split. Qed.

(** C3, as claimed, fails: 4 ticks after the filtered value first reached
    low-voltage-engage the committed state is still Normal, the pending
    UnderVoltageCutoff having reached age 4 only then. *)
Lemma scenario_not_committed_after_4 :
  first_tick (fun g => cellvoltage g <=? c_LVoltage_engage) 20 = Some 8%nat /\
  cell_view (scenario_at (8 + 4)) = (e_CellNorm, e_CellLVC, 4%N).
Proof. vm_compute. split; reflexivity. Qed.

(** * Further properties of the code *)

(** ** Hysteresis: what holds the committed values *)

Lemma shunting_tick_cases v g :
  shunting (classify_tick v g) = shunting g \/
  shunting (classify_tick v g) = shunting_new (shunting g) v.
Proof.
  pose proof (debounce_commit Bool.eqb
                (shunting_new (shunting g) v) (shunt_view g)) as H.
  rewrite <- shunt_view_tick in H. exact H.
Qed.

(** While the shunt proposal from [x] is [x] itself, [x] stays committed. *)
Lemma shunting_run_stays x vs : forall g,
  Forall (fun v => shunting_new x v = x) vs ->
  shunting g = x ->
  shunting (classify_run vs g) = x.
Proof.
  induction vs as [|v vs IH]; intros g Hvs Hg; [exact Hg|].
  inversion Hvs as [|? ? Hv Hrest]; subst.
  rewrite classify_run_cons. apply IH; [assumption|].
  destruct (shunting_tick_cases v g) as [H|H]; rewrite H; congruence.
Qed.

(** X1. Hysteresis of the cell state.  A committed UnderVoltageCutoff is
    kept through every run of filtered voltages at or below
    low-voltage-disengage, a committed OverVoltageCutoff through every run
    at or above high-voltage-disengage, and a committed Normal through every
    run strictly between the two engage thresholds, whatever the pending
    state and its age; from UnderVoltageCutoff, Normal is proposed exactly
    for voltages above low-voltage-disengage and below high-voltage-engage. *)
Theorem committed_state_latched g vs v :
  (cellstate g = e_CellLVC ->
   Forall (fun v => v <= c_LVoltage_disengage) vs ->
   cellstate (classify_run vs g) = e_CellLVC) /\
  (cellstate g = e_CellHVC ->
   Forall (fun v => c_HVoltage_disengage <= v) vs ->
   cellstate (classify_run vs g) = e_CellHVC) /\
  (cellstate g = e_CellNorm ->
   Forall (fun v => c_LVoltage_engage < v < c_HVoltage_engage) vs ->
   cellstate (classify_run vs g) = e_CellNorm) /\
  (cellstate_new e_CellLVC v = e_CellNorm <->
   c_LVoltage_disengage < v < c_HVoltage_engage).
Proof.
  split; [|split; [|split]].
  - intros Hg Hvs. apply cellstate_run_stays; [|exact Hg].
    eapply Forall_impl; [exact Hvs|]. cbv beta. intros w Hw.
    rewrite cellstate_new_bands. thresholds w.
  - intros Hg Hvs. apply cellstate_run_stays; [|exact Hg].
    eapply Forall_impl; [exact Hvs|]. cbv beta. intros w Hw.
    rewrite cellstate_new_bands. thresholds w.
  - intros Hg Hvs. apply cellstate_run_stays; [|exact Hg].
    eapply Forall_impl; [exact Hvs|]. cbv beta. intros w Hw.
    rewrite cellstate_new_bands. thresholds w.
  - rewrite cellstate_new_bands. split.
    + thresholds v; discriminate.
    + intros [H1 H2]. thresholds v.
Qed.

Lemma committed_state_latched_witness :
  cellstate (classify_run [2950; 2901; 2800; 2950; 2950; 2950; 2950; 2950]
               (set_cell e_CellLVC e_CellNorm 4 power_on)) = e_CellLVC /\
  cellstate (classify_run [3550; 3599; 3700; 3550; 3550; 3550; 3550; 3550]
               (set_cell e_CellHVC e_CellNorm 4 power_on)) = e_CellHVC /\
  cellstate (classify_run [2901; 3599; 2901; 2901; 2901; 2901; 2901; 2901]
               (set_cell e_CellNorm e_CellLVC 4 power_on)) = e_CellNorm.
Proof.
  split; [|split].
  - apply (proj1 (committed_state_latched
                    (set_cell e_CellLVC e_CellNorm 4 power_on)
                    [2950; 2901; 2800; 2950; 2950; 2950; 2950; 2950] 0));
      [reflexivity|].
    repeat constructor; unfold c_LVoltage_disengage; lia.
  - apply (proj1 (proj2 (committed_state_latched
                    (set_cell e_CellHVC e_CellNorm 4 power_on)
                    [3550; 3599; 3700; 3550; 3550; 3550; 3550; 3550] 0)));
      [reflexivity|].
    repeat constructor; unfold c_HVoltage_disengage; lia.
  - apply (proj1 (proj2 (proj2 (committed_state_latched
                    (set_cell e_CellNorm e_CellLVC 4 power_on)
                    [2901; 3599; 2901; 2901; 2901; 2901; 2901; 2901] 0))));
      [reflexivity|].
    repeat constructor; unfold c_LVoltage_engage, c_HVoltage_engage; lia.
Defined.

(** X2. A run of at least settle-tick + 3 consecutive ticks with the
    filtered voltage at or below low-voltage-engage ends with
    UnderVoltageCutoff committed, from every start state. *)
Theorem sustained_low_commits g vs :
  (N.to_nat c_StateSettleTime + 3 <= length vs)%nat ->
  Forall (fun v => v <= c_LVoltage_engage) vs ->
  cellstate (classify_run vs g) = e_CellLVC.
Proof.
  intros Hlen Hvs. apply cellstate_run_commits; [|exact Hlen].
  eapply Forall_impl; [exact Hvs|]. cbv beta. intros v Hv cs.
  now apply cellstate_new_low.
Qed.

Lemma sustained_low_commits_witness :
  cellstate (classify_run (repeat 2900 6)
               (set_cell e_CellHVC e_CellHVC 4 power_on)) = e_CellLVC.
Proof.
  apply sustained_low_commits; [simpl; lia|].
  repeat constructor; unfold c_LVoltage_engage; lia.
Defined.

(** X3. Hysteresis of the shunt.  The shunt proposal is true exactly when
    the flag is off and the voltage is above shunt-engage, or the flag is on
    and the voltage is not below shunt-disengage.  A committed shunting flag
    that is on stays on through every run at or above shunt-disengage, and
    one that is off stays off through every run at or below shunt-engage. *)
Theorem shunt_latched g vs sh v :
  (shunting_new sh v =
   if sh then c_ShuntVoltage_disengage <=? v else c_ShuntVoltage_engage <? v) /\
  (shunting g = true ->
   Forall (fun v => c_ShuntVoltage_disengage <= v) vs ->
   shunting (classify_run vs g) = true) /\
  (shunting g = false ->
   Forall (fun v => v <= c_ShuntVoltage_engage) vs ->
   shunting (classify_run vs g) = false).
Proof.
  split; [|split].
  - unfold shunting_new. destruct sh; cbn [negb andb]; thresholds v.
  - intros Hg Hvs. apply shunting_run_stays; [|exact Hg].
    eapply Forall_impl; [exact Hvs|]. cbv beta. intros w Hw.
    unfold shunting_new. cbn [negb andb]. thresholds w.
  - intros Hg Hvs. apply shunting_run_stays; [|exact Hg].
    eapply Forall_impl; [exact Hvs|]. cbv beta. intros w Hw.
    unfold shunting_new. cbn [negb andb]. thresholds w.
Qed.

Lemma shunt_latched_witness :
  shunting (classify_run [3450; 3460; 3600; 3450; 3450; 3450; 3450; 3450]
              (set_shunt true false 4 power_on)) = true /\
  shunting (classify_run [3500; 3400; 3500; 3500; 3500; 3500; 3500; 3500]
              (set_shunt false true 4 power_on)) = false.
Proof.
  split.
  - apply (proj1 (proj2 (shunt_latched
                    (set_shunt true false 4 power_on)
                    [3450; 3460; 3600; 3450; 3450; 3450; 3450; 3450]
                    true 0)));
      [reflexivity|].
    repeat constructor; unfold c_ShuntVoltage_disengage; lia.
  - apply (proj2 (proj2 (shunt_latched
                    (set_shunt false true 4 power_on)
                    [3500; 3400; 3500; 3500; 3500; 3500; 3500; 3500]
                    true 0)));
      [reflexivity|].
    repeat constructor; unfold c_ShuntVoltage_engage; lia.
Defined.

(** X4. From every start state, a run of at least settle-tick + 3
    consecutive ticks with the filtered voltage below shunt-disengage ends
    with the shunting flag off, and one above shunt-engage with it on. *)
Theorem sustained_shunt_commits g vs :
  (N.to_nat c_StateSettleTime + 3 <= length vs)%nat ->
  (Forall (fun v => v < c_ShuntVoltage_disengage) vs ->
   shunting (classify_run vs g) = false) /\
  (Forall (fun v => c_ShuntVoltage_engage < v) vs ->
   shunting (classify_run vs g) = true).
Proof.
  intros Hlen. split; intros Hvs; apply shunting_run_commits;
    try exact Hlen; (eapply Forall_impl; [exact Hvs|]); cbv beta;
    intros v Hv sh; unfold shunting_new; destruct sh; cbn [negb andb];
    thresholds v.
Qed.

Lemma sustained_shunt_commits_witness :
  shunting (classify_run (repeat 3449 6) (set_shunt true true 4 power_on))
    = false /\
  shunting (classify_run (repeat 3700 6) power_on) = true.
Proof.
  split.
  - apply (proj1 (sustained_shunt_commits
                    (set_shunt true true 4 power_on) (repeat 3449 6)
                    ltac:(simpl; lia))).
    repeat constructor; unfold c_ShuntVoltage_disengage; lia.
  - apply (proj2 (sustained_shunt_commits power_on (repeat 3700 6)
                    ltac:(simpl; lia))).
    repeat constructor; unfold c_ShuntVoltage_engage; lia.
Defined.

(** ** The debounce guarantee *)

Section DebounceGuard.
Context {A : Type} (eqb : A -> A -> bool).
Hypothesis eqb_eq : forall a b, eqb a b = true <-> a = b.

(** A tick whatever it proposes: while [x] is neither committed nor one
    tick from being committed, it is not committed by the tick, and it
    comes closer by at most one tick. *)
Lemma debounce_guard_step x new s :
  fst (fst s) <> x ->
  (2 <= ticks_to_commit eqb x s)%N ->
  fst (fst (debounce eqb new s)) <> x /\
  (ticks_to_commit eqb x s <= ticks_to_commit eqb x (debounce eqb new s) + 1)%N.
Proof.
  destruct s as [[st pend] age].
  unfold ticks_to_commit, debounce, c_StateSettleTime. cbn [fst].
  intros Hst Hfar.
  destruct (eqb pend new) eqn:Hpn; cbn [negb].
  - apply eqb_eq in Hpn. subst new.
    destruct (N.ltb_spec 3 age) as [Hage|Hage]; cbn [fst].
    + destruct (eqb pend x) eqn:Hpx; [lia|].
      split; [|lia]. intros ->. rewrite (eqb_same eqb eqb_eq) in Hpx.
      discriminate.
    + split; [exact Hst|].
      rewrite wrap_uint_small by (simpl; lia).
      destruct (eqb pend x); [|lia].
      destruct (N.ltb_spec 3 (age + 1)); lia.
  - cbn [fst]. split; [exact Hst|].
    destruct (eqb pend x), (eqb new x); destruct (N.ltb_spec 3 0);
      destruct (N.ltb_spec 3 age); lia.
Qed.

(** A tick that proposes something else than [x] leaves [x] as far from
    being committed as it can be. *)
Lemma debounce_other_proposal x new s :
  new <> x ->
  fst (fst s) <> x ->
  fst (fst (debounce eqb new s)) <> x /\
  ticks_to_commit eqb x (debounce eqb new s) = (c_StateSettleTime + 3)%N.
Proof.
  destruct s as [[st pend] age].
  unfold ticks_to_commit, debounce. cbn [fst]. intros Hnew Hst.
  assert (Hnx : eqb new x = false).
  { destruct (eqb new x) eqn:H; [|reflexivity].
    apply eqb_eq in H. contradiction. }
  destruct (eqb pend new) eqn:Hpn; cbn [negb].
  - apply eqb_eq in Hpn. subst pend.
    destruct (c_StateSettleTime <? age)%N; cbn [fst]; rewrite Hnx; auto.
  - cbn [fst]. rewrite Hnx. auto.
Qed.
End DebounceGuard.

Lemma cellstate_guarded_run x vs : forall g,
  cellstate g <> x ->
  (N.of_nat (length vs) < ticks_to_commit CellState_eqb x (cell_view g))%N ->
  cellstate (classify_run vs g) <> x.
Proof.
  induction vs as [|v vs IH]; intros g Hg Hfar; [exact Hg|].
  rewrite classify_run_cons.
  destruct (debounce_guard_step CellState_eqb CellState_eqb_eq x
              (cellstate_new (cellstate g) v) (cell_view g) Hg)
    as [Hst Hstep].
  { cbn [length] in Hfar. lia. }
  rewrite <- cell_view_tick in Hst, Hstep.
  apply IH; [exact Hst|]. cbn [length] in Hfar. lia.
Qed.

Lemma shunting_guarded_run x vs : forall g,
  shunting g <> x ->
  (N.of_nat (length vs) < ticks_to_commit Bool.eqb x (shunt_view g))%N ->
  shunting (classify_run vs g) <> x.
Proof.
  induction vs as [|v vs IH]; intros g Hg Hfar; [exact Hg|].
  rewrite classify_run_cons.
  destruct (debounce_guard_step Bool.eqb Bool.eqb_true_iff x
              (shunting_new (shunting g) v) (shunt_view g) Hg)
    as [Hst Hstep].
  { cbn [length] in Hfar. lia. }
  rewrite <- shunt_view_tick in Hst, Hstep.
  apply IH; [exact Hst|]. cbn [length] in Hfar. lia.
Qed.

(** X5. The debounce guarantee for the cell state.  If a state [x] is not
    committed and a tick proposes something else, then [x] is not committed
    by that tick nor by any of the settle-tick + 2 ticks that follow,
    whatever their voltages and whatever the pending state and age were: a
    state is committed only after it was proposed settle-tick + 3 times in a
    row. *)
Theorem cellstate_not_committed_early g x v0 vs :
  cellstate g <> x ->
  cellstate_new (cellstate g) v0 <> x ->
  (length vs <= N.to_nat c_StateSettleTime + 2)%nat ->
  cellstate (classify_run (v0 :: vs) g) <> x.
Proof.
  intros Hg Hnew Hlen. rewrite classify_run_cons.
  destruct (debounce_other_proposal CellState_eqb CellState_eqb_eq x
              (cellstate_new (cellstate g) v0) (cell_view g) Hnew Hg)
    as [Hst Hfar].
  rewrite <- cell_view_tick in Hst, Hfar.
  apply cellstate_guarded_run; [exact Hst|].
  rewrite Hfar. unfold c_StateSettleTime in *. lia.
Qed.

Lemma cellstate_not_committed_early_witness :
  (cellstate (classify_run [3300; 3700; 3700; 3700; 3700; 3700]
                (set_cell e_CellNorm e_CellHVC 4 power_on)) <> e_CellHVC) /\
  cell_view (classify_run [3300; 3700; 3700; 3700; 3700; 3700]
               (set_cell e_CellNorm e_CellHVC 4 power_on))
    = (e_CellNorm, e_CellHVC, 4%N).
Proof.
  split; [|reflexivity].
  apply (cellstate_not_committed_early
           (set_cell e_CellNorm e_CellHVC 4 power_on) e_CellHVC 3300
           [3700; 3700; 3700; 3700; 3700]).
  - discriminate.
  - discriminate.
  - simpl. lia.
Defined.

(** X6. The debounce guarantee for the shunt.  A tick whose shunt proposal
    is the committed flag keeps the flag through that tick and through the
    settle-tick + 2 ticks that follow, whatever their voltages. *)
Theorem shunting_not_changed_early g v0 vs :
  shunting_new (shunting g) v0 = shunting g ->
  (length vs <= N.to_nat c_StateSettleTime + 2)%nat ->
  shunting (classify_run (v0 :: vs) g) = shunting g.
Proof.
  intros Hnew Hlen. rewrite classify_run_cons.
  assert (Hg : shunting g <> negb (shunting g))
    by (destruct (shunting g); discriminate).
  assert (Hnew' : shunting_new (shunting g) v0 <> negb (shunting g))
    by (rewrite Hnew; exact Hg).
  destruct (debounce_other_proposal Bool.eqb Bool.eqb_true_iff
              (negb (shunting g))
              (shunting_new (shunting g) v0) (shunt_view g) Hnew' Hg)
    as [Hst Hfar].
  rewrite <- shunt_view_tick in Hst, Hfar.
  assert (H : shunting (classify_run vs (classify_tick v0 g))
              <> negb (shunting g)).
  { apply shunting_guarded_run; [exact Hst|].
    rewrite Hfar. unfold c_StateSettleTime in *. lia. }
  destruct (shunting (classify_run vs (classify_tick v0 g))),
    (shunting g); try reflexivity; exfalso; apply H; reflexivity.
Qed.

Lemma shunting_not_changed_early_witness :
  shunting (classify_run [3480; 3600; 3600; 3600; 3600; 3600]
              (set_shunt false true 4 power_on)) = false.
Proof.
  apply (shunting_not_changed_early (set_shunt false true 4 power_on) 3480
           [3600; 3600; 3600; 3600; 3600]).
  - reflexivity.
  - simpl. lia.
Defined.

(** [determine_cellstate] touches the six debounce variables only. *)
Lemma determine_cellstate_frame g :
  avg_buffer (determine_cellstate g) = avg_buffer g /\
  avg_index (determine_cellstate g) = avg_index g /\
  cellvoltage (determine_cellstate g) = cellvoltage g /\
  last_cutoff_age (determine_cellstate g) = last_cutoff_age g.
Proof.
  unfold determine_cellstate.
  destruct g as [cv buf idx cs cp ca sh sp sa lc].
  cbn [cellvoltage cellstate shunting shunting_pending
       shunting_pending_age cellstate_pending cellstate_pending_age].
  destruct (CellState_eqb (cellstate_new cs cv) e_CellInvalid);
    destruct (negb (Bool.eqb sp (shunting_new sh cv)));
    destruct (c_StateSettleTime <? sa)%N;
    cbn [set_shunt set_cellvoltage cellvoltage cellstate shunting
         shunting_pending shunting_pending_age cellstate_pending
         cellstate_pending_age avg_buffer avg_index last_cutoff_age];
    try (repeat split; reflexivity);
    destruct (negb (CellState_eqb cp (cellstate_new cs cv)));
    destruct (c_StateSettleTime <? ca)%N; repeat split; reflexivity.
Qed.

(** X7. Cell classification and shunt control do not interfere.  After the
    same filtered voltages, two sets of globals that agree on the cell
    variables still agree on them, and two that agree on the shunt
    variables still agree on those; and [determine_cellstate] changes
    neither the filter window, nor its cursor, nor the stored voltage, nor
    the recency counter. *)
Theorem classification_frame vs g1 g2 g :
  (cell_view g1 = cell_view g2 ->
   cell_view (classify_run vs g1) = cell_view (classify_run vs g2)) /\
  (shunt_view g1 = shunt_view g2 ->
   shunt_view (classify_run vs g1) = shunt_view (classify_run vs g2)) /\
  avg_buffer (determine_cellstate g) = avg_buffer g /\
  avg_index (determine_cellstate g) = avg_index g /\
  cellvoltage (determine_cellstate g) = cellvoltage g /\
  last_cutoff_age (determine_cellstate g) = last_cutoff_age g.
Proof.
  split; [|split].
  - revert g1 g2. induction vs as [|v vs IH]; intros g1 g2 H; [exact H|].
    rewrite !classify_run_cons. apply IH. rewrite !cell_view_tick.
    assert (Hc : cellstate g1 = cellstate g2)
      by (unfold cell_view in H; congruence).
    now rewrite H, Hc.
  - revert g1 g2. induction vs as [|v vs IH]; intros g1 g2 H; [exact H|].
    rewrite !classify_run_cons. apply IH. rewrite !shunt_view_tick.
    assert (Hc : shunting g1 = shunting g2)
      by (unfold shunt_view in H; congruence).
    now rewrite H, Hc.
  - apply determine_cellstate_frame.
Qed.

Lemma classification_frame_witness :
  cell_view (classify_run [3300; 3700; 2800]
               (set_shunt true true 4 power_on))
  = cell_view (classify_run [3300; 3700; 2800] power_on).
Proof.
  apply (proj1 (classification_frame [3300; 3700; 2800]
                  (set_shunt true true 4 power_on) power_on power_on)).
  reflexivity.
Defined.

(** ** The filter on bounded readings *)

Lemma exact_sum_bounds lo hi buf :
  Forall (fun x => lo <= x <= hi) buf ->
  Z.of_nat (length buf) * lo <= exact_sum buf <= Z.of_nat (length buf) * hi.
Proof.
  unfold exact_sum. induction 1 as [|x buf Hx _ IH].
  - simpl. lia.
  - cbn [fold_right length]. lia.
Qed.

Lemma quot_5_bounds lo hi s :
  5 * lo <= s <= 5 * hi -> lo <= Z.quot s 5 <= hi.
Proof.
  intros Hs. pose proof (Z.quot_rem' s 5) as Hqr.
  destruct (Z.le_gt_cases 0 s) as [Hpos|Hneg].
  - pose proof (Z.rem_bound_pos s 5 Hpos ltac:(lia)). lia.
  - pose proof (Z.rem_bound_abs s 5 ltac:(lia)).
    pose proof (Z.rem_sign_mul s 5 ltac:(lia)). nia.
Qed.

(** X8. The filter on bounded readings.  If the window is well formed, all
    its slots and the new reading lie in [lo, hi], and five times either
    bound fits a 32-bit [long], then the sum does not overflow: the push
    returns the exact truncating mean of the slots, this mean lies in
    [lo, hi] again, and so do all slots afterwards. *)
Theorem moving_average_within lo hi val g :
  window_ok g ->
  slots_within lo hi g ->
  lo <= val <= hi ->
  long_range (Z.of_N c_MovingAverageWindow * lo) ->
  long_range (Z.of_N c_MovingAverageWindow * hi) ->
  fst (moving_average val g)
    = Z.quot (exact_sum (avg_buffer (snd (moving_average val g))))
             (Z.of_N c_MovingAverageWindow) /\
  lo <= fst (moving_average val g) <= hi /\
  slots_within lo hi (snd (moving_average val g)).
Proof.
  intros Hok Hslots Hval Hlo Hhi.
  assert (Hslots' : slots_within lo hi (snd (moving_average val g))).
  { unfold slots_within, moving_average. cbn [snd set_avg avg_buffer].
    now apply Forall_insert. }
  pose proof (moving_average_window_ok val g Hok) as [Hlen _].
  pose proof (exact_sum_bounds _ _ _ Hslots') as Hsum.
  rewrite Hlen in Hsum.
  change (Z.of_nat (N.to_nat c_MovingAverageWindow)) with 5 in Hsum.
  change (Z.of_N c_MovingAverageWindow) with 5 in *.
  rewrite moving_average_mean by exact Hok.
  change (Z.of_N c_MovingAverageWindow) with 5.
  rewrite wrap_long_small by (unfold long_range in *; lia).
  split; [reflexivity|]. split; [|exact Hslots'].
  now apply quot_5_bounds.
Qed.

Lemma moving_average_within_witness :
  1101 <= fst (moving_average 3613 power_on) <= 1126400.
Proof.
  apply (moving_average_within 1101 1126400 3613 power_on).
  - split; reflexivity.
  - repeat constructor; lia.
  - lia.
  - unfold long_range. simpl. lia.
  - unfold long_range. simpl. lia.
Defined.

(** ** The measurement *)

Lemma lor_shifted_byte a b :
  0 <= b < 2 ^ 8 -> Z.lor (a * 2 ^ 8) b = a * 2 ^ 8 + b.
Proof.
  intros Hb. rewrite <- Z.add_lor_land.
  assert (Hland : Z.land (a * 2 ^ 8) b = 0).
  { apply Z.bits_inj'. intros n Hn. rewrite Z.land_spec, Z.bits_0.
    destruct (Z.lt_ge_cases n 8) as [Hlow|Hhigh].
    - rewrite Z.mul_pow2_bits_low by exact Hlow. reflexivity.
    - assert (Hbit : Z.testbit b n = false).
      { destruct (Z.eq_dec b 0) as [->|Hnz]; [apply Z.bits_0|].
        apply Z.bits_above_log2; [lia|].
        assert (Z.log2 b < 8) by (apply Z.log2_lt_pow2; lia). lia. }
      rewrite Hbit. apply andb_false_r. }
  rewrite Hland. lia.
Qed.

Lemma readADC_arith ADCL ADCH :
  0 <= ADCL < 256 ->
  0 <= ADCH < 128 ->
  readADC ADCL ADCH = 256 * ADCH + ADCL.
Proof.
  intros HL HH. unfold readADC. rewrite Z.shiftl_mul_pow2 by lia.
  assert (Hw : wrap_int (ADCH * 2 ^ 8) = ADCH * 2 ^ 8).
  { unfold wrap_int. rewrite Z.mod_small by lia. lia. }
  rewrite Hw, lor_shifted_byte by lia. lia.
Qed.

(** X9. [readADC] puts the two data registers together arithmetically: for
    a low byte and a high byte below 128 (the shift then stays inside the
    16-bit [int]) the result is 256 * ADCH + ADCL, which for the 10 bits of
    the converter (ADCH at most 3) lies between 0 and 1023. *)
Theorem readADC_value ADCL ADCH :
  0 <= ADCL < 256 ->
  0 <= ADCH < 128 ->
  readADC ADCL ADCH = 256 * ADCH + ADCL /\
  (ADCH <= 3 -> 0 <= readADC ADCL ADCH <= 1023).
Proof.
  intros HL HH. pose proof (readADC_arith ADCL ADCH HL HH) as Heq.
  split; [exact Heq|]. rewrite Heq. lia.
Qed.

Lemma readADC_value_witness :
  readADC 96 1 = 256 * 1 + 96 /\ 0 <= readADC 96 1 <= 1023.
Proof.
  pose proof (readADC_value 96 1 ltac:(lia) ltac:(lia)) as [Heq Hrange].
  split; [exact Heq | apply Hrange; lia].
Defined.

Lemma calibration_factor_custom_value :
  Z.of_N calibration_factor_custom = 1126400.
Proof. reflexivity. Qed.

(** X10. [readVcc] with the configured calibration factor, on the converter
    results 1 .. 1023: the reading is defined, lies between 1101 and
    1126400 mV, and falls as the converter result rises; it is at or below
    low-voltage-engage exactly from 389 counts on, at or above
    high-voltage-engage exactly up to 312 counts, and strictly inside the
    safe band exactly from 318 to 381 counts.  For a converter result of 0
    the division is undefined. *)
Theorem readVcc_on_counts adc adc' :
  1 <= adc <= adc' ->
  adc' <= 1023 ->
  readVcc (Z.of_N calibration_factor_custom) 0 = None /\
  readVcc (Z.of_N calibration_factor_custom) adc
    = Some (Z.quot (Z.of_N calibration_factor_custom) adc) /\
  1101 <= Z.quot (Z.of_N calibration_factor_custom) adc <= 1126400 /\
  Z.quot (Z.of_N calibration_factor_custom) adc'
    <= Z.quot (Z.of_N calibration_factor_custom) adc /\
  (Z.quot (Z.of_N calibration_factor_custom) adc <= c_LVoltage_engage
   <-> 389 <= adc) /\
  (c_HVoltage_engage <= Z.quot (Z.of_N calibration_factor_custom) adc
   <-> adc <= 312) /\
  (in_safe_band (Z.quot (Z.of_N calibration_factor_custom) adc)
   <-> 318 <= adc <= 381).
Proof.
  intros Hadc Hmax. rewrite calibration_factor_custom_value.
  split; [reflexivity|]. split.
  { unfold readVcc. destruct (Z.eqb_spec adc 0); [lia | reflexivity]. }
  rewrite !Z.quot_div_nonneg by lia.
  assert (Hmono : 1126400 / adc' <= 1126400 / adc)
    by (apply Z.div_le_compat_l; lia).
  pose proof (Z.div_mod 1126400 adc ltac:(lia)) as Hdm.
  pose proof (Z.mod_pos_bound 1126400 adc ltac:(lia)) as Hr.
  unfold in_safe_band, c_LVoltage_engage, c_HVoltage_engage,
    c_LVoltage_disengage, c_HVoltage_disengage.
  repeat split; try exact Hmono; try nia.
Qed.

Lemma readVcc_on_counts_witness :
  readVcc (Z.of_N calibration_factor_custom) 352 = Some 3200 /\
  Z.quot (Z.of_N calibration_factor_custom) 389 = 2895 /\
  Z.quot (Z.of_N calibration_factor_custom) 388 = 2903.
Proof.
  split; [|split; reflexivity].
  apply (readVcc_on_counts 352 352); lia.
Defined.

(** ** What a pass of [loop] does to the globals *)

(** The switch of [loop] changes the recency counter only. *)
Lemma loop_fields vcc g :
  cellvoltage (fst (loop vcc g)) = cellvoltage (at_switch vcc g) /\
  avg_buffer (fst (loop vcc g)) = avg_buffer (at_switch vcc g) /\
  avg_index (fst (loop vcc g)) = avg_index (at_switch vcc g) /\
  cell_view (fst (loop vcc g)) = cell_view (at_switch vcc g) /\
  shunt_view (fst (loop vcc g)) = shunt_view (at_switch vcc g).
Proof.
  rewrite loop_at_switch. cbv zeta.
  generalize (at_switch vcc g). intros [cv buf idx cs cp ca sh sp sa lc].
  cbn [cellstate last_cutoff_age].
  destruct cs; cbn [fst]; try (repeat split; reflexivity).
  destruct (lc <? c_RecentCutOffDuration)%N; repeat split; reflexivity.
Qed.

(** The globals at the switch are the classifier's, run on the filter's
    result and the globals the filter leaves. *)
Lemma at_switch_classify vcc g :
  exists g0,
    at_switch vcc g
    = classify_tick (fst (moving_average vcc g0)) (snd (moving_average vcc g0)) /\
    cellvoltage g0 = cellvoltage g /\
    avg_buffer g0 = avg_buffer g /\
    avg_index g0 = avg_index g /\
    cell_view g0 = cell_view g /\
    shunt_view g0 = shunt_view g.
Proof.
  exists (if negb (last_cutoff_age g =? c_NoCutoffEvent)%N
          then set_last_cutoff_age (wrap_uint (last_cutoff_age g + 1)) g
          else g).
  split.
  - unfold at_switch, classify_tick, moving_average. cbn [fst snd].
    reflexivity.
  - destruct (negb (last_cutoff_age g =? c_NoCutoffEvent)%N);
      repeat split; reflexivity.
Qed.

Lemma moving_average_same_window val g g0 :
  avg_buffer g0 = avg_buffer g ->
  avg_index g0 = avg_index g ->
  fst (moving_average val g0) = fst (moving_average val g) /\
  avg_buffer (snd (moving_average val g0))
    = avg_buffer (snd (moving_average val g)) /\
  avg_index (snd (moving_average val g0))
    = avg_index (snd (moving_average val g)).
Proof.
  intros Hbuf Hidx. unfold moving_average.
  cbn [fst snd set_avg avg_buffer avg_index]. rewrite Hbuf, Hidx.
  repeat split; reflexivity.
Qed.

Lemma moving_average_views val g :
  cell_view (snd (moving_average val g)) = cell_view g /\
  shunt_view (snd (moving_average val g)) = shunt_view g.
Proof. split; reflexivity. Qed.

(** A pass of [loop] seen on the filter and on the debounce variables. *)
Lemma loop_pass vcc g :
  cellvoltage (fst (loop vcc g)) = fst (moving_average vcc g) /\
  avg_buffer (fst (loop vcc g)) = avg_buffer (snd (moving_average vcc g)) /\
  avg_index (fst (loop vcc g)) = avg_index (snd (moving_average vcc g)) /\
  cell_view (fst (loop vcc g))
    = debounce CellState_eqb
        (cellstate_new (cellstate g) (fst (moving_average vcc g)))
        (cell_view g) /\
  shunt_view (fst (loop vcc g))
    = debounce Bool.eqb
        (shunting_new (shunting g) (fst (moving_average vcc g)))
        (shunt_view g).
Proof.
  destruct (loop_fields vcc g) as (Hv & Hb & Hi & Hc & Hs).
  rewrite Hv, Hb, Hi, Hc, Hs. clear Hv Hb Hi Hc Hs.
  destruct (at_switch_classify vcc g) as (g0 & -> & _ & Hbuf & Hidx & Hcv & Hsv).
  destruct (moving_average_same_window vcc g g0 Hbuf Hidx) as (Ha & Hb' & Hi').
  rewrite <- Ha, <- Hb', <- Hi'. clear Ha Hb' Hi' Hbuf Hidx.
  destruct (moving_average_views vcc g0) as [Hcv0 Hsv0].
  assert (Hcs : cellstate g = cellstate (snd (moving_average vcc g0))).
  { change (fst (fst (cell_view g))
            = fst (fst (cell_view (snd (moving_average vcc g0))))).
    now rewrite Hcv0, Hcv. }
  assert (Hsh : shunting g = shunting (snd (moving_average vcc g0))).
  { change (fst (fst (shunt_view g))
            = fst (fst (shunt_view (snd (moving_average vcc g0))))).
    now rewrite Hsv0, Hsv. }
  rewrite Hcs, Hsh, <- Hcv, <- Hsv, <- Hcv0, <- Hsv0.
  generalize (fst (moving_average vcc g0)).
  generalize (snd (moving_average vcc g0)). intros g1 avg.
  rewrite cell_view_tick, shunt_view_tick.
  destruct (determine_cellstate_frame (set_cellvoltage avg g1))
    as (Hfb & Hfi & Hfv & _).
  unfold classify_tick. rewrite Hfb, Hfi, Hfv.
  repeat split; reflexivity.
Qed.

(** ** Invariants of the control loop *)

Lemma debounce_age_bound {A : Type} (eqb : A -> A -> bool) new s :
  (snd s <= c_StateSettleTime + 1)%N ->
  (snd (debounce eqb new s) <= c_StateSettleTime + 1)%N.
Proof.
  destruct s as [[st pend] age]. unfold debounce, c_StateSettleTime.
  cbn [snd]. intros Hage.
  destruct (negb (eqb pend new)); cbn [snd]; [lia|].
  destruct (N.ltb_spec 3 age); cbn [snd]; [exact Hage|].
  rewrite wrap_uint_small by (simpl; lia). lia.
Qed.

Lemma recency_step_bound cs a :
  (a <= c_NoCutoffEvent)%N -> (recency_step cs a <= c_NoCutoffEvent)%N.
Proof.
  unfold recency_step, c_NoCutoffEvent, c_RecentCutOffDuration. intros Ha.
  destruct (N.eqb_spec a 65535) as [->|Hne].
  - destruct cs; simpl; lia.
  - rewrite wrap_uint_small by (simpl; lia).
    destruct cs; try lia.
    destruct (N.ltb_spec (a + 1) (30 * 60)); lia.
Qed.

Lemma loop_globals_ok vcc g : globals_ok g -> globals_ok (fst (loop vcc g)).
Proof.
  intros (Hwin & Hca & Hsa & Hlc).
  destruct (loop_pass vcc g) as (_ & Hb & Hi & Hc & Hs).
  pose proof (loop_last_cutoff_age vcc g) as Hr.
  pose proof (moving_average_window_ok vcc g Hwin) as Hwin'.
  pose proof (debounce_age_bound CellState_eqb
                (cellstate_new (cellstate g) (fst (moving_average vcc g)))
                (cell_view g) Hca) as Hca'.
  pose proof (debounce_age_bound Bool.eqb
                (shunting_new (shunting g) (fst (moving_average vcc g)))
                (shunt_view g) Hsa) as Hsa'.
  rewrite <- Hc in Hca'. rewrite <- Hs in Hsa'.
  pose proof (recency_step_bound (cellstate (fst (loop vcc g))) _ Hlc) as Hlc'.
  rewrite <- Hr in Hlc'.
  unfold window_ok in Hwin'. rewrite <- Hb, <- Hi in Hwin'.
  clear Hb Hi Hc Hs Hr.
  revert Hwin' Hca' Hsa' Hlc'. generalize (fst (loop vcc g)). intros g1.
  intros Hwin' Hca' Hsa' Hlc'. repeat split; try assumption; apply Hwin'.
Qed.

Lemma run_globals_ok vccs : forall g, globals_ok g -> globals_ok (run vccs g).
Proof.
  induction vccs as [|vcc vccs IH]; intros g Hg.
  - now rewrite run_nil.
  - rewrite run_cons. apply IH. now apply loop_globals_ok.
Qed.

Lemma power_on_globals_ok : globals_ok power_on.
Proof.
  repeat split; try reflexivity;
    unfold c_StateSettleTime, c_NoCutoffEvent; simpl; lia.
Qed.

(** The age a debounce block leaves: 0 with a new pending value, and with
    the pending value kept either the age it found or that age plus one,
    the addition being the exact one (the block increments an age only
    while it does not exceed the settle time). *)
Lemma debounce_age_exact {A : Type} (eqb : A -> A -> bool)
    (eqb_eq : forall a b, eqb a b = true <-> a = b) new st pend age :
  (snd (fst (debounce eqb new (st, pend, age))) <> pend /\
   snd (debounce eqb new (st, pend, age)) = 0%N) \/
  (snd (fst (debounce eqb new (st, pend, age))) = pend /\
   (snd (debounce eqb new (st, pend, age)) = age \/
    snd (debounce eqb new (st, pend, age)) = (age + 1)%N)).
Proof.
  unfold debounce, c_StateSettleTime.
  destruct (eqb pend new) eqn:Hpn; cbn [negb].
  - right. destruct (N.ltb_spec 3 age); cbn [fst snd].
    + split; [reflexivity | now left].
    + split; [reflexivity | right].
      apply wrap_uint_small. simpl. lia.
  - left. cbn [fst snd]. split; [|reflexivity].
    intros ->. rewrite (proj2 (eqb_eq pend pend) eq_refl) in Hpn.
    discriminate.
Qed.

(** The same for a pass: globals whose cell-state view is a debounce block
    run on the view of the globals before. *)
Lemma cell_age_of_view g g1 new :
  cell_view g1 = debounce CellState_eqb new (cell_view g) ->
  (cellstate_pending g1 <> cellstate_pending g /\
   cellstate_pending_age g1 = 0%N) \/
  (cellstate_pending g1 = cellstate_pending g /\
   (cellstate_pending_age g1 = cellstate_pending_age g \/
    cellstate_pending_age g1 = (cellstate_pending_age g + 1)%N)).
Proof.
  intros Hc.
  pose proof (debounce_age_exact CellState_eqb CellState_eqb_eq new
                (cellstate g) (cellstate_pending g) (cellstate_pending_age g))
    as Hage.
  change (cellstate g, cellstate_pending g, cellstate_pending_age g)
    with (cell_view g) in Hage.
  rewrite <- Hc in Hage. exact Hage.
Qed.

Lemma shunt_age_of_view g g1 new :
  shunt_view g1 = debounce Bool.eqb new (shunt_view g) ->
  (shunting_pending g1 <> shunting_pending g /\
   shunting_pending_age g1 = 0%N) \/
  (shunting_pending g1 = shunting_pending g /\
   (shunting_pending_age g1 = shunting_pending_age g \/
    shunting_pending_age g1 = (shunting_pending_age g + 1)%N)).
Proof.
  intros Hs.
  pose proof (debounce_age_exact Bool.eqb Bool.eqb_true_iff new
                (shunting g) (shunting_pending g) (shunting_pending_age g))
    as Hage.
  change (shunting g, shunting_pending g, shunting_pending_age g)
    with (shunt_view g) in Hage.
  rewrite <- Hs in Hage. exact Hage.
Qed.

Lemma at_switch_counter_exact vcc g :
  (last_cutoff_age g <= c_NoCutoffEvent)%N ->
  last_cutoff_age (at_switch vcc g)
    = (if (last_cutoff_age g =? c_NoCutoffEvent)%N then c_NoCutoffEvent
       else last_cutoff_age g + 1)%N.
Proof.
  intros Hlc. rewrite at_switch_last_cutoff_age. unfold c_NoCutoffEvent in *.
  destruct (N.eqb_spec (last_cutoff_age g) 65535) as [Heq|Hne]; [exact Heq|].
  apply wrap_uint_small. simpl. lia.
Qed.

(** X11. An invariant of the control loop, and no counter wraps around.
    After power-on and after any number of passes, whatever the readings,
    the filter window has its five slots and the cursor points into it,
    neither pending age has passed settle time + 1, and the recency counter
    is at most the sentinel; every pass preserves these facts.  In a pass
    from such globals every increment is the exact one, without the 16-bit
    wrap-around: at the switch the recency counter is the sentinel if it
    was, and one more than it was otherwise; each pending age is 0 after
    the pass if the pending value changed, and otherwise the age it was or
    exactly one more. *)
Theorem globals_ok_invariant vccs vcc g :
  globals_ok (run vccs power_on) /\
  (globals_ok g ->
   globals_ok (fst (loop vcc g)) /\
   last_cutoff_age (at_switch vcc g)
     = (if (last_cutoff_age g =? c_NoCutoffEvent)%N then c_NoCutoffEvent
        else last_cutoff_age g + 1)%N /\
   ((cellstate_pending (fst (loop vcc g)) <> cellstate_pending g /\
     cellstate_pending_age (fst (loop vcc g)) = 0%N) \/
    (cellstate_pending (fst (loop vcc g)) = cellstate_pending g /\
     (cellstate_pending_age (fst (loop vcc g)) = cellstate_pending_age g \/
      cellstate_pending_age (fst (loop vcc g))
        = (cellstate_pending_age g + 1)%N))) /\
   ((shunting_pending (fst (loop vcc g)) <> shunting_pending g /\
     shunting_pending_age (fst (loop vcc g)) = 0%N) \/
    (shunting_pending (fst (loop vcc g)) = shunting_pending g /\
     (shunting_pending_age (fst (loop vcc g)) = shunting_pending_age g \/
      shunting_pending_age (fst (loop vcc g))
        = (shunting_pending_age g + 1)%N)))).
Proof.
  split.
  - apply run_globals_ok. exact power_on_globals_ok.
  - intros Hg. split; [exact (loop_globals_ok vcc g Hg)|].
    split; [exact (at_switch_counter_exact vcc g (proj2 (proj2 (proj2 Hg))))|].
    split.
    + exact (cell_age_of_view g (fst (loop vcc g)) _
               (proj1 (proj2 (proj2 (proj2 (loop_pass vcc g)))))).
    + exact (shunt_age_of_view g (fst (loop vcc g)) _
               (proj2 (proj2 (proj2 (proj2 (loop_pass vcc g)))))).
Qed.

Lemma globals_ok_invariant_witness :
  globals_ok (run (repeat 2850 10 ++ repeat 3200 1000) power_on) /\
  globals_ok
    (fst (loop 3200 (run (repeat 2850 10 ++ repeat 3200 1000) power_on))) /\
  last_cutoff_age
    (at_switch 3200 (run (repeat 2850 10 ++ repeat 3200 1000) power_on))
    = (if N.eqb
            (last_cutoff_age
               (run (repeat 2850 10 ++ repeat 3200 1000) power_on))
            c_NoCutoffEvent
       then c_NoCutoffEvent
       else N.add
              (last_cutoff_age
                 (run (repeat 2850 10 ++ repeat 3200 1000) power_on)) 1) /\
  last_cutoff_age (run (repeat 2850 10 ++ repeat 3200 1000) power_on)
    = 994%N.
Proof.
  pose proof (globals_ok_invariant (repeat 2850 10 ++ repeat 3200 1000) 3200
                (run (repeat 2850 10 ++ repeat 3200 1000) power_on))
    as [Hok Hpass].
  destruct (Hpass Hok) as (Hok' & Hcnt & _).
  split; [exact Hok|]. split; [exact Hok'|]. split; [exact Hcnt|].
  vm_compute. reflexivity.
Defined.

(** ** From raw readings to committed states *)

Lemma filter_run_cons val vals g :
  filter_run (val :: vals) g = filter_run vals (snd (moving_average val g)).
Proof. reflexivity. Qed.

Lemma filter_run_same_window vals : forall g g0,
  avg_buffer g0 = avg_buffer g ->
  avg_index g0 = avg_index g ->
  avg_buffer (filter_run vals g0) = avg_buffer (filter_run vals g) /\
  avg_index (filter_run vals g0) = avg_index (filter_run vals g).
Proof.
  induction vals as [|val vals IH]; intros g g0 Hb Hi; [now split|].
  rewrite !filter_run_cons.
  destruct (moving_average_same_window val g g0 Hb Hi) as (_ & Hb' & Hi').
  now apply IH.
Qed.

(** On the filter variables a run of [loop] is a run of pushes. *)
Lemma run_filter_fields vccs : forall g,
  avg_buffer (run vccs g) = avg_buffer (filter_run vccs g) /\
  avg_index (run vccs g) = avg_index (filter_run vccs g).
Proof.
  induction vccs as [|vcc vccs IH]; intros g.
  - rewrite run_nil. now split.
  - rewrite run_cons, filter_run_cons.
    destruct (loop_pass vcc g) as (_ & Hb & Hi & _).
    destruct (IH (fst (loop vcc g))) as [IHb IHi]. rewrite IHb, IHi.
    now apply filter_run_same_window.
Qed.

Lemma filter_run_window_ok vals : forall g,
  window_ok g -> window_ok (filter_run vals g).
Proof.
  induction vals as [|val vals IH]; intros g Hg; [exact Hg|].
  rewrite filter_run_cons. apply IH. now apply moving_average_window_ok.
Qed.

(** Four pushes and a fifth one overwrite every slot of the window. *)
Lemma fill_window lo hi pre g val :
  window_ok g ->
  length pre = 4%nat ->
  Forall (fun v => lo <= v <= hi) pre ->
  lo <= val <= hi ->
  window_ok (filter_run pre g) /\
  slots_within lo hi (snd (moving_average val (filter_run pre g))).
Proof.
  unfold window_ok, c_MovingAverageWindow. intros [Hlen Hidx] Hpre Hband Hval.
  destruct g as [cv buf idx cs cp ca sh sp sa lc].
  cbn [avg_buffer avg_index] in *.
  destruct buf as [|b0 [|b1 [|b2 [|b3 [|b4 [|? ?]]]]]]; try discriminate Hlen.
  destruct pre as [|v1 [|v2 [|v3 [|v4 [|? ?]]]]]; try discriminate Hpre.
  inversion Hband as [|? ? H1 Hband1]; subst.
  inversion Hband1 as [|? ? H2 Hband2]; subst.
  inversion Hband2 as [|? ? H3 Hband3]; subst.
  inversion Hband3 as [|? ? H4 _]; subst.
  assert (Hcases : (idx = 0 \/ idx = 1 \/ idx = 2 \/ idx = 3 \/ idx = 4)%N)
    by lia.
  unfold slots_within.
  destruct Hcases as [->|[->|[->|[->| ->]]]];
    (split; [split; reflexivity|]);
    match goal with
    | |- Forall ?P ?l => let l' := eval vm_compute in l in change (Forall P l')
    end;
    repeat (constructor; [assumption|]); constructor.
Qed.

Lemma moving_average_in_band lo hi val g :
  window_ok g ->
  slots_within lo hi (snd (moving_average val g)) ->
  long_range (Z.of_N c_MovingAverageWindow * lo) ->
  long_range (Z.of_N c_MovingAverageWindow * hi) ->
  lo <= fst (moving_average val g) <= hi.
Proof.
  intros Hok Hslots Hlo Hhi.
  pose proof (moving_average_window_ok val g Hok) as [Hlen _].
  pose proof (exact_sum_bounds _ _ _ Hslots) as Hsum.
  rewrite Hlen in Hsum.
  change (Z.of_nat (N.to_nat c_MovingAverageWindow)) with 5 in Hsum.
  change (Z.of_N c_MovingAverageWindow) with 5 in *.
  rewrite moving_average_mean by exact Hok.
  change (Z.of_N c_MovingAverageWindow) with 5.
  rewrite wrap_long_small by (unfold long_range in *; lia).
  now apply quot_5_bounds.
Qed.

Section Band.
Variables (lo hi : Z) (x : CellState).
Hypothesis lo_fits : long_range (Z.of_N c_MovingAverageWindow * lo).
Hypothesis hi_fits : long_range (Z.of_N c_MovingAverageWindow * hi).
Hypothesis band_proposes :
  forall v cs, lo <= v <= hi -> cellstate_new cs v = x.

(** A pass on a reading of the band, from a window that one push fills. *)
Lemma band_pass vcc g :
  one_push_from lo hi g ->
  lo <= vcc <= hi ->
  one_push_from lo hi (fst (loop vcc g)) /\
  cell_view (fst (loop vcc g)) = debounce CellState_eqb x (cell_view g).
Proof.
  intros [Hwin Hpush] Hvcc.
  destruct (loop_pass vcc g) as (_ & Hb & Hi & Hc & _).
  pose proof (Hpush vcc Hvcc) as Hslots.
  pose proof (moving_average_in_band lo hi vcc g Hwin Hslots lo_fits hi_fits)
    as Havg.
  rewrite (band_proposes _ (cellstate g) Havg) in Hc.
  pose proof (moving_average_window_ok vcc g Hwin) as Hwin'.
  unfold window_ok in Hwin'. rewrite <- Hb, <- Hi in Hwin'.
  unfold slots_within in Hslots. rewrite <- Hb in Hslots.
  clear Hb Hi Havg Hpush.
  revert Hc Hwin' Hslots. generalize (fst (loop vcc g)). intros g1 Hc Hwin' Hslots.
  split; [|exact Hc]. split; [exact Hwin'|].
  intros val Hval. unfold slots_within, moving_average.
  cbn [snd set_avg avg_buffer]. now apply Forall_insert.
Qed.

Lemma band_run vccs : forall g,
  one_push_from lo hi g ->
  Forall (fun v => lo <= v <= hi) vccs ->
  cell_view (run vccs g)
  = debounce_n CellState_eqb x (length vccs) (cell_view g).
Proof.
  induction vccs as [|vcc vccs IH]; intros g Hg Hvccs.
  - now rewrite run_nil.
  - inversion Hvccs as [|? ? Hvcc Hrest]; subst.
    destruct (band_pass vcc g Hg Hvcc) as [Hg1 Hc].
    rewrite run_cons, IH by assumption.
    cbn [length debounce_n]. now rewrite Hc.
Qed.

(** Window size + settle time + 2 readings of the band commit [x]. *)
Lemma band_commits vccs g :
  window_ok g ->
  (N.to_nat c_MovingAverageWindow + N.to_nat c_StateSettleTime + 2
   <= length vccs)%nat ->
  Forall (fun v => lo <= v <= hi) vccs ->
  cellstate (run vccs g) = x.
Proof.
  intros Hwin Hlen Hvccs.
  rewrite <- (firstn_skipn 4 vccs) in Hvccs |- *.
  apply Forall_app in Hvccs as [Hpre Hpost].
  assert (Hlpre : length (firstn 4 vccs) = 4%nat).
  { rewrite length_firstn. unfold c_MovingAverageWindow in Hlen.
    simpl in Hlen. lia. }
  assert (Hlpost : (N.to_nat c_StateSettleTime + 3
                    <= length (skipn 4 vccs))%nat).
  { rewrite length_skipn. unfold c_MovingAverageWindow in Hlen.
    simpl in Hlen. simpl. lia. }
  rewrite run_app.
  assert (Hg4 : one_push_from lo hi (run (firstn 4 vccs) g)).
  { destruct (run_filter_fields (firstn 4 vccs) g) as [Hb Hi].
    split.
    - pose proof (filter_run_window_ok (firstn 4 vccs) g Hwin) as Hw.
      unfold window_ok in *. now rewrite Hb, Hi.
    - intros val Hval.
      destruct (fill_window lo hi (firstn 4 vccs) g val Hwin Hlpre Hpre Hval)
        as [_ Hs].
      destruct (moving_average_same_window val _ _ Hb Hi) as (_ & Hb' & _).
      unfold slots_within in *. now rewrite Hb'. }
  change (cellstate (run (skipn 4 vccs) (run (firstn 4 vccs) g)))
    with (fst (fst (cell_view (run (skipn 4 vccs) (run (firstn 4 vccs) g))))).
  rewrite band_run by assumption.
  now apply (debounce_n_commits CellState_eqb CellState_eqb_eq).
Qed.
End Band.

(** Bounds against the range of a [long], on constants. *)
Ltac long_range_const :=
  unfold long_range, in_safe_band, c_MovingAverageWindow, c_LVoltage_engage,
    c_HVoltage_engage, c_LVoltage_disengage, c_HVoltage_disengage in *;
  change (2 ^ 31) with 2147483648 in *; change (Z.of_N 5) with 5 in *; lia.

(** X12. From raw readings to the committed state.  From any globals with
    a well-formed window, whatever its slots, the pending states and the
    ages, window size + settle time + 2 = 10 or more consecutive passes of
    [loop] whose readings are all at or below low-voltage-engage end with
    UnderVoltageCutoff committed; with readings all at or above
    high-voltage-engage they end with OverVoltageCutoff committed; with
    readings all strictly inside the safe band, with Normal committed.  The
    readings are such that five times a reading fits a 32-bit [long]. *)
Theorem sustained_readings_commit g vccs :
  window_ok g ->
  (N.to_nat c_MovingAverageWindow + N.to_nat c_StateSettleTime + 2
   <= length vccs)%nat ->
  (Forall (fun v => v <= c_LVoltage_engage /\
                    long_range (Z.of_N c_MovingAverageWindow * v)) vccs ->
   cellstate (run vccs g) = e_CellLVC) /\
  (Forall (fun v => c_HVoltage_engage <= v /\
                    long_range (Z.of_N c_MovingAverageWindow * v)) vccs ->
   cellstate (run vccs g) = e_CellHVC) /\
  (Forall in_safe_band vccs -> cellstate (run vccs g) = e_CellNorm).
Proof.
  intros Hwin Hlen. split; [|split]; intros Hvccs.
  - apply (band_commits (- 429496729) c_LVoltage_engage e_CellLVC);
      try assumption.
    + long_range_const.
    + long_range_const.
    + intros v cs Hv. now apply cellstate_new_low.
    + eapply Forall_impl; [exact Hvccs|]. cbv beta. intros v Hv.
      long_range_const.
  - apply (band_commits c_HVoltage_engage 429496729 e_CellHVC);
      try assumption.
    + long_range_const.
    + long_range_const.
    + intros v cs Hv. now apply cellstate_new_high.
    + eapply Forall_impl; [exact Hvccs|]. cbv beta. intros v Hv.
      long_range_const.
  - apply (band_commits (c_LVoltage_disengage + 1) (c_HVoltage_disengage - 1)
             e_CellNorm); try assumption.
    + long_range_const.
    + long_range_const.
    + intros v cs Hv. apply cellstate_new_safe_band.
      unfold in_safe_band. lia.
    + eapply Forall_impl; [exact Hvccs|]. cbv beta. intros v Hv.
      long_range_const.
Qed.

Lemma sustained_readings_commit_witness :
  cellstate (run (repeat 2850 10) (run (repeat 3700 12) power_on))
    = e_CellLVC /\
  cellstate (run (repeat 3700 10) power_on) = e_CellHVC /\
  cellstate (run (repeat 3300 10) (run (repeat 3700 12) power_on))
    = e_CellNorm.
Proof.
  assert (Hok : window_ok (run (repeat 3700 12) power_on))
    by (split; vm_compute; reflexivity).
  assert (Hok0 : window_ok power_on) by (split; reflexivity).
  split; [|split].
  - apply (proj1 (sustained_readings_commit _ (repeat 2850 10) Hok
                    ltac:(simpl; lia))).
    repeat constructor; long_range_const.
  - apply (proj1 (proj2 (sustained_readings_commit _ (repeat 3700 10) Hok0
                    ltac:(simpl; lia)))).
    repeat constructor; long_range_const.
  - apply (proj2 (proj2 (sustained_readings_commit _ (repeat 3300 10) Hok
                    ltac:(simpl; lia)))).
    repeat constructor;
      unfold c_LVoltage_disengage, c_HVoltage_disengage; lia.
Defined.

(** The bound of X12 is reached: after OverVoltageCutoff is committed on
    3700 mV readings, nine readings of 2850 mV do not yet commit
    UnderVoltageCutoff. *)
Lemma nine_readings_too_few :
  cell_view (run (repeat 2850 9) (run (repeat 3700 12) power_on))
    = (e_CellHVC, e_CellLVC, 4%N) /\
  cell_view (run (repeat 2850 10) (run (repeat 3700 12) power_on))
    = (e_CellLVC, e_CellLVC, 4%N).
Proof. vm_compute. split; reflexivity. Qed.

(** X13. Start-up.  After power-on, while all readings are strictly inside
    the safe band, the first five passes of [loop] end with the committed
    state still Invalid and every pass from the sixth on ends with Normal
    committed. *)
Theorem start_up_leaves_invalid vccs :
  Forall in_safe_band vccs ->
  cellstate (run vccs power_on)
  = if (length vccs <? 6)%nat then e_CellInvalid else e_CellNorm.
Proof.
  intros Hvccs.
  assert (Hrun : cell_view (run vccs power_on)
                 = debounce_n CellState_eqb e_CellNorm (length vccs)
                     (cell_view power_on)).
  { apply (band_run (c_LVoltage_disengage + 1) (c_HVoltage_disengage - 1)).
    - long_range_const.
    - long_range_const.
    - intros v cs Hv. apply cellstate_new_safe_band.
      unfold in_safe_band. lia.
    - split; [split; reflexivity|]. intros val Hval.
      unfold slots_within, moving_average.
      cbn [snd set_avg avg_buffer]. apply Forall_insert; [|exact Hval].
      repeat constructor;
        unfold c_LVoltage_disengage, c_HVoltage_disengage; lia.
    - eapply Forall_impl; [exact Hvccs|]. cbv beta. intros v Hv.
      long_range_const. }
  change (cellstate (run vccs power_on))
    with (fst (fst (cell_view (run vccs power_on)))).
  rewrite Hrun. change (cell_view power_on)
    with (e_CellInvalid, e_CellInvalid, 0%N).
  destruct (length vccs) as [|n]; [reflexivity|].
  rewrite (debounce_n_fresh CellState_eqb CellState_eqb_eq) by reflexivity.
  unfold c_StateSettleTime.
  destruct (N.leb_spec (N.of_nat n) (3 + 1));
    destruct (Nat.ltb_spec (S n) 6); try reflexivity; lia.
Qed.

Lemma start_up_leaves_invalid_witness :
  cellstate (run [3000; 3500; 3100; 3400; 3200] power_on) = e_CellInvalid /\
  cellstate (run [3000; 3500; 3100; 3400; 3200; 3300] power_on) = e_CellNorm.
Proof.
  split.
  - apply (start_up_leaves_invalid [3000; 3500; 3100; 3400; 3200]).
    repeat constructor;
      unfold c_LVoltage_disengage, c_HVoltage_disengage; lia.
  - apply (start_up_leaves_invalid [3000; 3500; 3100; 3400; 3200; 3300]).
    repeat constructor;
      unfold c_LVoltage_disengage, c_HVoltage_disengage; lia.
Defined.

Lemma loop_prelude vcc g :
  firstn 3 (snd (loop vcc g)) = [LED_OFF; SHUNT_OFF; delayMicroseconds 200].
Proof.
  rewrite loop_at_switch. cbv zeta.
  generalize (at_switch vcc g). intros [cv buf idx cs cp ca sh sp sa lc].
  cbn [cellstate]. destruct cs; reflexivity.
Qed.

Lemma loop_measured_defined sel ADMUX ADCL ADCH g vcc :
  readVcc (Z.of_N calibration_factor_custom) (readADC ADCL ADCH) = Some vcc ->
  loop_measured sel ADMUX ADCL ADCH g
  = Some (fst (loop vcc g), sel,
          [LED_OFF; SHUNT_OFF; delayMicroseconds 200]
          ++ (if ADMUX =? sel then [] else [delayMicroseconds 350])
          ++ skipn 3 (snd (loop vcc g))).
Proof.
  intros Hvcc. unfold loop_measured, readADC_select. rewrite Hvcc.
  destruct (Z.eqb_spec ADMUX sel) as [->|Hne]; cbn [negb];
    rewrite loop_prelude; reflexivity.
Qed.

(** X14. A measured pass.  With a converter result of 1 .. 1023 in the two
    data registers, a well-formed window and all slots between 1101 and
    1126400 mV (as after power-on), the pass of [loop] is defined and its
    reading is 1126400 / (256 * ADCH + ADCL), between 1101 and 1126400.
    The pass leaves the globals of [loop] on that reading and the selection
    register on the reference channel; its events are those of [loop], with
    the 350 microseconds settling pause after the first three if the
    register did not hold the selection before, as in the first pass after
    power-on, and with nothing added if it did.  The stored filtered
    voltage is the exact truncating mean of the five slots (the 32-bit sum
    does not overflow) and lies in the same range, and the window is left
    well formed with all slots in that range, so the same holds for the
    next pass.  With a converter result of 0 the pass is undefined. *)
Theorem measured_pass sel ADMUX ADCL ADCH g :
  0 <= ADCL < 256 ->
  0 <= ADCH <= 3 ->
  0 < 256 * ADCH + ADCL ->
  window_ok g ->
  slots_within 1101 1126400 g ->
  loop_measured sel ADMUX 0 0 g = None /\
  loop_measured sel ADMUX ADCL ADCH g
    = Some (fst (loop (Z.quot 1126400 (256 * ADCH + ADCL)) g), sel,
            [LED_OFF; SHUNT_OFF; delayMicroseconds 200]
            ++ (if ADMUX =? sel then [] else [delayMicroseconds 350])
            ++ skipn 3 (snd (loop (Z.quot 1126400 (256 * ADCH + ADCL)) g))) /\
  1101 <= Z.quot 1126400 (256 * ADCH + ADCL) <= 1126400 /\
  cellvoltage (fst (loop (Z.quot 1126400 (256 * ADCH + ADCL)) g))
    = Z.quot
        (exact_sum
           (avg_buffer (fst (loop (Z.quot 1126400 (256 * ADCH + ADCL)) g))))
        (Z.of_N c_MovingAverageWindow) /\
  1101 <= cellvoltage (fst (loop (Z.quot 1126400 (256 * ADCH + ADCL)) g))
       <= 1126400 /\
  window_ok (fst (loop (Z.quot 1126400 (256 * ADCH + ADCL)) g)) /\
  slots_within 1101 1126400
    (fst (loop (Z.quot 1126400 (256 * ADCH + ADCL)) g)).
Proof.
  intros HL HH Hnz Hwin Hslots.
  pose proof (readADC_arith ADCL ADCH HL ltac:(lia)) as Hadc.
  assert (Hvcc : 1101 <= Z.quot 1126400 (256 * ADCH + ADCL) <= 1126400).
  { rewrite Z.quot_div_nonneg by lia.
    pose proof (Z.div_mod 1126400 (256 * ADCH + ADCL) ltac:(lia)) as Hdm.
    pose proof (Z.mod_pos_bound 1126400 (256 * ADCH + ADCL) ltac:(lia)) as Hr.
    split; nia. }
  split.
  { unfold loop_measured. now destruct (readADC_select sel ADMUX). }
  split.
  { apply loop_measured_defined.
    rewrite Hadc, calibration_factor_custom_value. unfold readVcc.
    destruct (Z.eqb_spec (256 * ADCH + ADCL) 0); [lia | reflexivity]. }
  split; [exact Hvcc|].
  revert Hvcc. generalize (Z.quot 1126400 (256 * ADCH + ADCL)).
  intros vcc Hvcc.
  assert (Hslots' : slots_within 1101 1126400 (snd (moving_average vcc g))).
  { unfold slots_within, moving_average. cbn [snd set_avg avg_buffer].
    now apply Forall_insert. }
  assert (Hrange : 1101 <= fst (moving_average vcc g) <= 1126400).
  { apply moving_average_in_band; try assumption; long_range_const. }
  pose proof (moving_average_window_ok vcc g Hwin) as Hwin'.
  assert (Hmean : fst (moving_average vcc g)
                  = Z.quot (exact_sum (avg_buffer (snd (moving_average vcc g))))
                           (Z.of_N c_MovingAverageWindow)).
  { rewrite moving_average_mean by exact Hwin.
    rewrite wrap_long_small; [reflexivity|].
    pose proof (exact_sum_bounds _ _ _ Hslots') as Hsum.
    rewrite (proj1 Hwin') in Hsum.
    change (Z.of_nat (N.to_nat c_MovingAverageWindow)) with 5 in Hsum.
    long_range_const. }
  destruct (loop_pass vcc g) as (Hv & Hb & Hi & _).
  unfold window_ok, slots_within in *.
  rewrite Hv, Hb, Hi.
  split; [exact Hmean|]. split; [exact Hrange|].
  split; [exact Hwin' | exact Hslots'].
Qed.

Lemma measured_pass_witness :
  loop_measured 12 0 96 1 power_on
    = Some (fst (loop (Z.quot 1126400 (256 * 1 + 96)) power_on), 12,
            [LED_OFF; SHUNT_OFF; delayMicroseconds 200]
            ++ (if 0 =? 12 then [] else [delayMicroseconds 350])
            ++ skipn 3 (snd (loop (Z.quot 1126400 (256 * 1 + 96)) power_on))) /\
  option_map snd (loop_measured 12 0 96 1 power_on)
    = Some [LED_OFF; SHUNT_OFF; delayMicroseconds 200; delayMicroseconds 350;
            LOOP_CLOSE; SHUNT_OFF;
            LED_ON; delay 166; LED_OFF; delay 166;
            LED_ON; delay 166; LED_OFF; delay 166;
            LED_ON; delay 166; LED_OFF; delay 166] /\
  option_map snd (loop_measured 12 12 96 1 power_on)
    = Some [LED_OFF; SHUNT_OFF; delayMicroseconds 200;
            LOOP_CLOSE; SHUNT_OFF;
            LED_ON; delay 166; LED_OFF; delay 166;
            LED_ON; delay 166; LED_OFF; delay 166;
            LED_ON; delay 166; LED_OFF; delay 166].
Proof.
  assert (Hok : window_ok power_on) by (split; reflexivity).
  assert (Hslots : slots_within 1101 1126400 power_on)
    by (repeat constructor; lia).
  pose proof (measured_pass 12 0 96 1 power_on ltac:(lia) ltac:(lia)
                ltac:(lia) Hok Hslots) as (_ & Hdef & _).
  split; [exact Hdef|]. split; vm_compute; reflexivity.
Defined.

(** ** The outputs of a pass *)

(** X15. The outputs of a pass of [loop], whatever the reading and the
    globals.  The trace begins with the indicator and the shunt switched
    off and the 200 microseconds pause, so the measurement is taken without
    load; when the pass ends the shunt is off, and the series loop is open
    if the committed state is UnderVoltageCutoff or OverVoltageCutoff and
    closed otherwise, whatever the pins were before. *)
Theorem pass_outputs vcc g p :
  firstn 3 (snd (loop vcc g)) = [LED_OFF; SHUNT_OFF; delayMicroseconds 200] /\
  pin_shunt (pins_after (snd (loop vcc g)) p) = false /\
  pin_loop (pins_after (snd (loop vcc g)) p)
    = negb (is_cutoff (cellstate (fst (loop vcc g)))).
Proof.
  rewrite loop_cellstate, loop_at_switch. cbv zeta.
  generalize (at_switch vcc g). intros [cv buf idx cs cp ca sh sp sa lc].
  cbn [cellstate last_cutoff_age shunting].
  destruct cs; cbn [snd is_cutoff negb];
    try (repeat split; reflexivity).
  destruct (lc <? c_RecentCutOffDuration)%N;
    cbn [shunting set_last_cutoff_age]; destruct sh;
    repeat split; reflexivity.
Qed.

(** X16. Shunt time and sleep of a pass of [loop].  The shunt is engaged
    for exactly 1000 ms of delay in a pass that ends in OverVoltageCutoff
    or in Normal with the shunting flag on, and not at all in any other
    pass; the pass enters deep sleep exactly when it ends in
    UnderVoltageCutoff or in Normal with the shunting flag off; and the
    measurement pause and the deep sleep always happen with the shunt
    disengaged. *)
Theorem pass_shunt_time vcc g p :
  shunt_on_ms (snd (loop vcc g)) p
    = (match cellstate (fst (loop vcc g)) with
       | e_CellHVC => 1000
       | e_CellNorm => if shunting (fst (loop vcc g)) then 1000 else 0
       | e_CellLVC | e_CellInvalid => 0
       end)%N /\
  existsb is_deep_sleep (snd (loop vcc g))
    = match cellstate (fst (loop vcc g)) with
      | e_CellLVC => true
      | e_CellNorm => negb (shunting (fst (loop vcc g)))
      | e_CellHVC | e_CellInvalid => false
      end /\
  idle_without_shunt (snd (loop vcc g)) p = true.
Proof.
  rewrite loop_cellstate, loop_shunting, loop_at_switch. cbv zeta.
  generalize (at_switch vcc g). intros [cv buf idx cs cp ca sh sp sa lc].
  cbn [cellstate last_cutoff_age shunting].
  destruct cs; cbn [snd];
    try (repeat split; reflexivity).
  destruct (lc <? c_RecentCutOffDuration)%N;
    cbn [shunting set_last_cutoff_age]; destruct sh;
    repeat split; reflexivity.
Qed.

(** X17. The indicator when a pass of [loop] ends (and during the deep
    sleep, if the pass sleeps): it is on after a pass that ends in
    OverVoltageCutoff, and after a pass that ends in Normal without
    shunting while the recency counter has not been pinned to the sentinel
    (the inverted pulse leaves it on); after every other pass it is off. *)
Theorem pass_indicator vcc g p :
  (last_cutoff_age g <= c_NoCutoffEvent)%N ->
  pin_led (pins_after (snd (loop vcc g)) p)
  = match cellstate (fst (loop vcc g)) with
    | e_CellHVC => true
    | e_CellNorm =>
        negb (shunting (fst (loop vcc g)))
        && negb (last_cutoff_age (fst (loop vcc g)) =? c_NoCutoffEvent)%N
    | e_CellLVC | e_CellInvalid => false
    end.
Proof.
  intros Hlc.
  assert (Hsw : (last_cutoff_age (at_switch vcc g) <= c_NoCutoffEvent)%N).
  { rewrite at_switch_last_cutoff_age. unfold c_NoCutoffEvent in *.
    destruct (N.eqb_spec (last_cutoff_age g) 65535); [lia|].
    rewrite wrap_uint_small by (simpl; lia). lia. }
  revert Hsw.
  rewrite loop_cellstate, loop_shunting, loop_at_switch. cbv zeta.
  generalize (at_switch vcc g). intros [cv buf idx cs cp ca sh sp sa lc].
  cbn [cellstate last_cutoff_age shunting]. intros Hsw.
  destruct cs; cbn [snd fst]; try reflexivity.
  unfold c_RecentCutOffDuration, c_NoCutoffEvent in *.
  destruct (N.ltb_spec lc (30 * 60)) as [Hrecent|Hold];
    cbn [shunting last_cutoff_age set_last_cutoff_age]; destruct sh;
    try reflexivity.
  destruct (N.eqb_spec lc 65535); [lia | reflexivity].
Qed.

Lemma pass_indicator_witness :
  pin_led (pins_after (snd (loop 3200 (run (repeat 3200 9) power_on)))
             (Pins false false false))
  = match cellstate (fst (loop 3200 (run (repeat 3200 9) power_on))) with
    | e_CellHVC => true
    | e_CellNorm =>
        negb (shunting (fst (loop 3200 (run (repeat 3200 9) power_on))))
        && negb (N.eqb
                   (last_cutoff_age
                      (fst (loop 3200 (run (repeat 3200 9) power_on))))
                   c_NoCutoffEvent)
    | e_CellLVC | e_CellInvalid => false
    end /\
  pin_led (pins_after (snd (loop 3200 (run (repeat 3200 9) power_on)))
             (Pins false false false)) = true.
Proof.
  split.
  - apply (pass_indicator 3200 (run (repeat 3200 9) power_on)
             (Pins false false false)).
    vm_compute. discriminate.
  - vm_compute. reflexivity.
Defined.

(** X18. [setup] on any globals whose window has its five slots: every
    slot holds the nominal 3200 mV whatever it held before, the cursor is
    kept, the recency counter is 0 and all three outputs are low.  The first
    reading [val] pushed afterwards therefore returns (4 * 3200 + val) / 5,
    truncated, wherever the cursor points, as long as that sum fits a
    32-bit [long]. *)
Theorem setup_window g val p :
  window_ok g ->
  long_range (4 * 3200 + val) ->
  avg_buffer (fst (setup g)) = repeat 3200 (N.to_nat c_MovingAverageWindow) /\
  avg_index (fst (setup g)) = avg_index g /\
  last_cutoff_age (fst (setup g)) = 0%N /\
  pins_after (snd (setup g)) p = Pins false false false /\
  fst (moving_average val (fst (setup g))) = Z.quot (4 * 3200 + val) 5.
Proof.
  unfold window_ok, c_MovingAverageWindow. intros [Hlen Hidx] Hval.
  destruct g as [cv buf idx cs cp ca sh sp sa lc].
  cbn [avg_buffer avg_index] in *.
  destruct buf as [|b0 [|b1 [|b2 [|b3 [|b4 [|? ?]]]]]]; try discriminate Hlen.
  split; [reflexivity|]. split; [reflexivity|]. split; [reflexivity|].
  split; [reflexivity|].
  assert (Hcases : (idx = 0 \/ idx = 1 \/ idx = 2 \/ idx = 3 \/ idx = 4)%N)
    by lia.
  assert (Hsum : forall buf',
            length buf' = 5%nat ->
            exact_sum buf' = 4 * 3200 + val ->
            Z.quot (sum_buffer buf') 5 = Z.quot (4 * 3200 + val) 5).
  { intros buf' Hl Hs. rewrite sum_buffer_exact by exact Hl.
    now rewrite Hs, wrap_long_small. }
  unfold moving_average. cbn [fst].
  change (Z.of_N c_MovingAverageWindow) with 5.
  destruct Hcases as [->|[->|[->|[->| ->]]]];
    match goal with
    | |- Z.quot (sum_buffer ?l) 5 = _ =>
        let l' := eval vm_compute in l in change l with l'
    end;
    (apply Hsum; [reflexivity|]); unfold exact_sum; cbn [fold_right]; lia.
Qed.

Lemma setup_window_witness :
  fst (moving_average 2850 (fst (setup (run [3700; 2850; 3100] power_on))))
    = Z.quot (4 * 3200 + 2850) 5.
Proof.
  apply (setup_window (run [3700; 2850; 3100] power_on) 2850
           (Pins true true true)).
  - split; vm_compute; reflexivity.
  - unfold long_range. change (2 ^ 31) with 2147483648. lia.
Defined.
